(** * Dummy-data synthesis for declared schemas: a shallow embedding of
    [main.py] and the properties its specification states about it.

    The Python module has one public function, [generate_dummy_data], with
    three local helpers: [extract_metadata], [generate_value] and
    [generate_dummy_instance].  They are embedded below as Rocq functions of
    the same names.  Randomness is an explicit effect: every call into
    [random] or [Faker] reads cells of a tape of naturals. *)

From Stdlib Require Import ZArith Lia Ascii String.
From stdpp Require Import gmap strings list fin_maps.

Local Open Scope string_scope.
Local Open Scope list_scope.
Set Warnings "-register-all".

(** ** Python exceptions the embedded code can raise *)

Inductive exn : Set :=
| StopIteration
| IndexError
| ValueError
| TypeError
| AssertionError
| AttributeError.

Inductive result (A : Type) : Type :=
| Ok (a : A)
| Err (e : exn).

Arguments Ok {A} a.
Arguments Err {A} e.

(** ** The randomness effect

    A computation either returns, raises, or asks the random source for one
    more natural and continues.  [run] interprets it on a tape: each draw
    pops the head cell, and an exhausted tape keeps answering [0]. *)

Inductive gen (A : Type) : Type :=
| Ret (a : A)
| Raise (e : exn)
| Draw (k : nat -> gen A).

Arguments Ret {A} a.
Arguments Raise {A} e.
Arguments Draw {A} k.

Fixpoint bind {A B : Type} (x : gen A) (f : A -> gen B) : gen B :=
  match x with
  | Ret a => f a
  | Raise e => Raise e
  | Draw k => Draw (fun d => bind (k d) f)
  end.

Notation "'let*' x := e 'in' k" := (bind e (fun x => k))
  (at level 10, x name, e at level 200, k at level 200).

Fixpoint run {A : Type} (x : gen A) (tape : list nat) : result A * list nat :=
  match x with
  | Ret a => (Ok a, tape)
  | Raise e => (Err e, tape)
  | Draw k => run (k (hd 0%nat tape)) (tl tape)
  end.

Definition draw : gen nat := Draw Ret.

(** [for _ in range(n)]: the same computation, [n] times in sequence. *)
Fixpoint repeat_gen {A : Type} (n : nat) (x : gen A) : gen (list A) :=
  match n with
  | O => Ret []
  | S n' => let* a := x in let* l := repeat_gen n' x in Ret (a :: l)
  end.

(** A comprehension over a list, evaluated left to right. *)
Definition map_gen {A B : Type} (f : A -> gen B) : list A -> gen (list B) :=
  fix go (l : list A) : gen (list B) :=
    match l with
    | [] => Ret []
    | a :: l' => let* b := f a in let* bs := go l' in Ret (b :: bs)
    end.

(** ** [random]: the calls the module and Faker make *)

(** [random.randrange(a, b)]: empty ranges raise [ValueError]. *)
Definition randrange (a b : Z) : gen Z :=
  if (a <? b)%Z then let* d := draw in Ret (a + Z.of_nat d mod (b - a))%Z
  else Raise ValueError.

(** [random.randint(a, b)] is [randrange(a, b + 1)]. *)
Definition randint (a b : Z) : gen Z := randrange a (b + 1).

(** [random.choice(seq)]: [IndexError] on an empty sequence, otherwise the
    element at a drawn index. *)
Definition choice {A : Type} (l : list A) : gen A :=
  match l with
  | [] => Raise IndexError
  | a :: _ => let* d := draw in Ret (nth (d mod List.length l) l a)
  end.

(** ** The fake-data source

    Faker's word lists and its floating-point generator are collaborators of
    the module, not part of it; Python floats are kept abstract as well.
    [pyfloat_between] answers [None] where Faker rejects the range with
    [ValueError]. *)

Class FakeSource : Type := {
  float : Type;
  float_of_int : Z -> float;
  float_add : float -> float -> float;
  float_sub : float -> float -> float;
  float_tenth : float;
  round2 : float -> float;
  pyfloat_any : nat -> float;
  pyfloat_between : float -> float -> nat -> option float;
  word_of : nat -> string;
  sentence_of : nat -> string;
  text_of : Z -> nat -> string
}.

Section Synthesis.

Context {fake : FakeSource}.

(** ** Python values: constraint bounds, enumeration members and the
    Generated Value tree.  A [VDict] lists its items in insertion order. *)

Inductive value : Type :=
| VNone
| VBool (b : bool)
| VInt (z : Z)
| VFloat (f : float)
| VStr (s : string)
| VList (l : list value)
| VTuple (l : list value)
| VDict (d : list (string * value)).

(** [d[k] = v] on an insertion-ordered dict: an existing key keeps its
    position and takes the new value, a new key is appended. *)
Fixpoint dict_set (d : list (string * value)) (k : string) (v : value)
  : list (string * value) :=
  match d with
  | [] => [(k, v)]
  | (k', v') :: d' =>
      if String.eqb k' k then (k', v) :: d' else (k', v') :: dict_set d' k v
  end.

Definition dict_keys (d : list (string * value)) : list string := map fst d.

(** A dict comprehension: the items are inserted in the order produced. *)
Definition dict_of_items (items : list (string * value))
  : list (string * value) :=
  foldl (fun d kv => dict_set d kv.1 kv.2) [] items.

(** ** Constraint annotations

    [StringConstraints] (pydantic) and [Interval] (annotated_types) are
    dataclasses; every attribute holds a Python value, [None] when unset.
    [AOther] is an annotation object of any other kind. *)

Record StringConstraints : Type := {
  sc_strip_whitespace : value;
  sc_to_upper : value;
  sc_to_lower : value;
  sc_strict : value;
  sc_min_length : value;
  sc_max_length : value;
  sc_pattern : value
}.

Record Interval : Type := {
  iv_gt : value;
  iv_ge : value;
  iv_lt : value;
  iv_le : value
}.

Inductive annotation : Type :=
| AStringConstraints (c : StringConstraints)
| AInterval (i : Interval)
| AOther (kind : string).

(** [item.__dict__] of a [StringConstraints] instance. *)
Definition sc_dict (c : StringConstraints) : list (string * value) :=
  [ ("strip_whitespace", sc_strip_whitespace c);
    ("to_upper", sc_to_upper c);
    ("to_lower", sc_to_lower c);
    ("strict", sc_strict c);
    ("min_length", sc_min_length c);
    ("max_length", sc_max_length c);
    ("pattern", sc_pattern c) ].

(** [getattr(item, attr)] where [hasattr(item, attr)] on an [Interval]. *)
Definition interval_attr (i : Interval) (attr : string) : option value :=
  if String.eqb attr "gt" then Some (iv_gt i)
  else if String.eqb attr "ge" then Some (iv_ge i)
  else if String.eqb attr "lt" then Some (iv_lt i)
  else if String.eqb attr "le" then Some (iv_le i)
  else None.

Definition is_not_none (v : value) : bool :=
  match v with VNone => false | _ => true end.

(** [extracted.update(items)] *)
Definition dict_update (extracted : gmap string value)
  (items : list (string * value)) : gmap string value :=
  foldl (fun acc kv => <[kv.1 := kv.2]> acc) extracted items.

(** One turn of the loop of [extract_metadata]. *)
Definition extract_item (extracted : gmap string value) (item : annotation)
  : gmap string value :=
  match item with
  | AStringConstraints c => dict_update extracted (sc_dict c)
  | AInterval i =>
      foldl (fun acc attr =>
               match interval_attr i attr with
               | Some v => <[attr := v]> acc
               | None => acc
               end)
            extracted ["gt"; "ge"; "lt"; "le"]
  | AOther _ => extracted
  end.

Definition extract_metadata (metadata : list annotation) : gmap string value :=
  filter (fun kv => is_not_none kv.2 = true) (foldl extract_item ∅ metadata).

(** [metadata.get(key, default)] *)
Definition dict_get (metadata : gmap string value) (key : string)
  (default : value) : value :=
  match metadata !! key with Some v => v | None => default end.

(** ** Declared types, as the dispatcher sees them

    [generate_value] asks four kinds of questions of [field_type]: its
    [get_origin] and [get_args], whether it is a class and which of the
    classes named in the source it derives from, whether it is one of a few
    builtin objects, and, for models and enumerations, its fields or members.
    A [pytype] records exactly that.  Nested models are held by value, so a
    schema is a finite tree; the members of an enumeration are taken to
    store plain Python data. *)

Inductive builtin : Set :=
| Cbool | Cint | Cfloat | Cstr | Clist | CNoneType | Cobject.

Inductive origin : Set :=
| OUnion | Olist | Odict | Otuple | Oother.

(** The classes against which the source tests [issubclass]. *)
Inductive base : Set :=
| BRootModel | BBaseModel | BEnum | Bbool | Bint | Bfloat | Bstr.

Inductive pytype : Type :=
| TAny
    (* [typing.Any] *)
| TSpecial (name : string)
    (* an object that is no class and has no origin: [...], a type variable *)
| TAlias (o : origin) (args : list pytype)
    (* a subscripted or generic alias; [Oother] covers [Annotated], [X | Y] *)
| TBuiltin (c : builtin)
    (* the class object itself; [Cobject] is any class not named above *)
| TSubclass (c : builtin) (name : string)
    (* a user class deriving from the builtin [c] *)
| TEnum (mixin : option builtin) (members : list value)
    (* an [Enum] class, possibly with a data-type mixin; members by value *)
| TRootModel (root : option pytype)
    (* a [RootModel] subclass and its own ['root'] annotation, if any *)
| TModel (model_fields : list (string * (pytype * list annotation))).
    (* a [BaseModel] subclass: name, annotation and metadata per field *)

Definition get_origin (t : pytype) : option origin :=
  match t with TAlias o _ => Some o | _ => None end.

Definition get_args (t : pytype) : list pytype :=
  match t with TAlias _ args => args | _ => [] end.

Definition origin_is (o : option origin) (o' : origin) : bool :=
  match o, o' with
  | Some OUnion, OUnion | Some Olist, Olist
  | Some Odict, Odict | Some Otuple, Otuple => true
  | _, _ => false
  end.

(** [isinstance(field_type, type)].  (Recent Pythons make [typing.Any] a
    class; it derives from none of the classes tested below, so either
    answer leads to the same rule.) *)
Definition isinstance_type (t : pytype) : bool :=
  match t with
  | TAny | TSpecial _ | TAlias _ _ => false
  | _ => true
  end.

(** The class hierarchy among builtins: [bool] derives from [int]. *)
Definition builtin_subclass (c : builtin) (b : base) : bool :=
  match c, b with
  | Cbool, Bbool | Cbool, Bint | Cint, Bint
  | Cfloat, Bfloat | Cstr, Bstr => true
  | _, _ => false
  end.

(** [issubclass(field_type, b)], for a [field_type] that is a class. *)
Definition issubclass (t : pytype) (b : base) : bool :=
  match t with
  | TBuiltin c | TSubclass c _ => builtin_subclass c b
  | TEnum mixin _ =>
      match b with
      | BEnum => true
      | _ => match mixin with
             | Some c => builtin_subclass c b
             | None => false
             end
      end
  | TRootModel _ =>
      match b with BRootModel | BBaseModel => true | _ => false end
  | TModel _ =>
      match b with BBaseModel => true | _ => false end
  | _ => false
  end.

(** [field_type is c] for a builtin class object [c]. *)
Definition is_builtin (t : pytype) (c : builtin) : bool :=
  match t, c with
  | TBuiltin Cbool, Cbool | TBuiltin Cint, Cint | TBuiltin Cfloat, Cfloat
  | TBuiltin Cstr, Cstr | TBuiltin Clist, Clist
  | TBuiltin CNoneType, CNoneType | TBuiltin Cobject, Cobject => true
  | _, _ => false
  end.

Definition is_Any (t : pytype) : bool :=
  match t with TAny => true | _ => false end.

(** [t is type(None)] *)
Definition is_NoneType (t : pytype) : bool := is_builtin t CNoneType.

(** [next(t for t in args if t is not type(None))], if there is one. *)
Definition first_non_none (args : list pytype) : option pytype :=
  find (fun t => negb (is_NoneType t)) args.

(** [field_type.__annotations__.get('root', Any)] *)
Definition root_annotation (t : pytype) : pytype :=
  match t with TRootModel (Some r) => r | _ => TAny end.

(** [list(field_type)], each member by its [.value]. *)
Definition enum_members (t : pytype) : list value :=
  match t with TEnum _ members => members | _ => [] end.

(** ** Python arithmetic on values *)

(** [operator.index]: integers, and booleans as the integers they are. *)
Definition int_of (v : value) : option Z :=
  match v with
  | VInt z => Some z
  | VBool b => Some (Z.b2z b)
  | _ => None
  end.

Definition float_of (v : value) : option float :=
  match v with
  | VFloat f => Some f
  | _ => float_of_int <$> int_of v
  end.

Definition as_index (v : value) : gen Z :=
  match int_of v with Some z => Ret z | None => Raise TypeError end.

Definition as_float (v : value) : gen float :=
  match float_of v with Some f => Ret f | None => Raise TypeError end.

(** [a + b] and [a - b] with a numeric right operand: integer arithmetic on
    integers, float arithmetic once a float is involved, [TypeError]
    otherwise. *)
Definition arith (zop : Z -> Z -> Z) (fop : float -> float -> float)
  (a b : value) : gen value :=
  match int_of a, int_of b with
  | Some x, Some y => Ret (VInt (zop x y))
  | _, _ =>
      match float_of a, float_of b with
      | Some x, Some y => Ret (VFloat (fop x y))
      | _, _ => Raise TypeError
      end
  end.

Definition py_add : value -> value -> gen value := arith Z.add float_add.
Definition py_sub : value -> value -> gen value := arith Z.sub float_sub.

(** [s[:k]] *)
Definition slice_to (s : string) (k : Z) : string :=
  if (0 <=? k)%Z then substring 0 (Z.to_nat k) s
  else substring 0 (String.length s - Z.to_nat (- k)) s.

(** ** Faker: the provider methods the module calls *)

(** [fake.random_int(min, max)] is [randrange(min, max + 1)]. *)
Definition random_int (min max : value) : gen value :=
  let* stop := py_add max (VInt 1) in
  let* a := as_index min in
  let* b := as_index stop in
  let* x := randrange a b in
  Ret (VInt x).

(** [fake.boolean()] is [randint(1, 100) <= 50]. *)
Definition boolean : gen bool :=
  let* n := randint 1 100 in Ret (n <=? 50)%Z.

Definition ascii_letters : list ascii :=
  list_ascii_of_string
    "abcdefghijklmnopqrstuvwxyzABCDEFGHIJKLMNOPQRSTUVWXYZ".

(** [fake.random_letters(length)]: that many choices among the letters. *)
Definition random_letters (length : Z) : gen (list ascii) :=
  repeat_gen (Z.to_nat length) (choice ascii_letters).

(** [fake.pystr(min_chars, max_chars)]: asserts [max_chars >= min_chars],
    draws a length in between, joins that many random letters. *)
Definition pystr (min_chars max_chars : Z) : gen string :=
  if (min_chars <=? max_chars)%Z then
    let* n := randint min_chars max_chars in
    let* chars := random_letters n in
    Ret (string_of_list_ascii chars)
  else Raise AssertionError.

(** [fake.text(max_nb_chars)]: refuses fewer than 5 characters. *)
Definition text (max_nb_chars : Z) : gen string :=
  if (max_nb_chars <? 5)%Z then Raise ValueError
  else let* d := draw in Ret (text_of max_nb_chars d).

Definition word : gen string := let* d := draw in Ret (word_of d).

(** [fake.sentence(nb_words=4)] *)
Definition sentence : gen string := let* d := draw in Ret (sentence_of d).

(** [fake.pyfloat()] *)
Definition pyfloat : gen float := let* d := draw in Ret (pyfloat_any d).

(** [fake.pyfloat(min_value, max_value)] *)
Definition pyfloat_range (min_value max_value : value) : gen float :=
  let* a := as_float min_value in
  let* b := as_float max_value in
  let* d := draw in
  match pyfloat_between a b d with
  | Some x => Ret x
  | None => Raise ValueError
  end.

(** ** The primitive rules of [generate_value] *)

(** Lines 78-81: a class deriving from [int]. *)
Definition int_rule (metadata : gmap string value) : gen value :=
  let* gt1 := py_add (dict_get metadata "gt" (VInt 1)) (VInt 1) in
  let min_val := dict_get metadata "ge" gt1 in
  let* lt1 := py_sub (dict_get metadata "lt" (VInt 1000)) (VInt 1) in
  let max_val := dict_get metadata "le" lt1 in
  random_int min_val max_val.

(** Lines 82-85: a class deriving from [float]. *)
Definition float_rule (metadata : gmap string value) : gen value :=
  let* gt1 := py_add (dict_get metadata "gt" (VFloat (float_of_int 1)))
                     (VFloat float_tenth) in
  let min_val := dict_get metadata "ge" gt1 in
  let* lt1 := py_sub (dict_get metadata "lt" (VFloat (float_of_int 1000)))
                     (VFloat float_tenth) in
  let max_val := dict_get metadata "le" lt1 in
  let* x := pyfloat_range min_val max_val in
  Ret (VFloat (round2 x)).

(** Lines 86-93: a class deriving from [str].  Length bounds are read as
    integers: with any other value both branches of the source end in an
    exception ([randint] or the slice refuses it), raised here up front. *)
Definition str_rule (metadata : gmap string value) : gen value :=
  let* min_length := as_index (dict_get metadata "min_length" (VInt 5)) in
  let* max_length := as_index (dict_get metadata "max_length" (VInt 15)) in
  if (min_length =? max_length)%Z then
    let* s := pystr min_length min_length in Ret (VStr s)
  else
    let* s := text max_length in
    Ret (VStr (slice_to s (Z.max min_length max_length))).

(** Line 106: every candidate is built before one is chosen. *)
Definition any_rule : gen value :=
  let* w := word in
  let* i := random_int (VInt 1) (VInt 1000) in
  let* f := pyfloat in
  let* s := sentence in
  choice [VStr w; i; VFloat f; VStr s].

(** Line 103: the bare [list] class. *)
Definition word_list_rule : gen value :=
  let* l := repeat_gen 3 word in Ret (VList (map VStr l)).

(** ** [generate_value] and [generate_dummy_instance] *)

(** [next(t for t in args if t is not type(None))], continued by [k]. *)
Definition with_first_non_none {A : Type} (k : pytype -> gen A)
  : list pytype -> gen A :=
  fix go (args : list pytype) : gen A :=
    match args with
    | [] => Raise StopIteration
    | t :: args' => if is_NoneType t then go args' else k t
    end.

(** What every class object that is a builtin or derives from one gets:
    [exact] tells the class object itself from a subclass of it. *)
Definition builtin_rule (c : builtin) (exact : bool)
  (metadata : gmap string value) : gen value :=
  match c with
  | Cbool => let* b := boolean in Ret (VBool b)
  | Cint => int_rule metadata
  | Cfloat => float_rule metadata
  | Cstr => str_rule metadata
  | Clist => if exact then word_list_rule else Ret VNone
  | CNoneType | Cobject => Ret VNone
  end.

(** The two entries of a generated mapping: key first, then value. *)
Definition dict_rule (value_gen : gen value) : gen value :=
  let* items := repeat_gen 2 (let* k := word in
                              let* v := value_gen in
                              Ret (k, v)) in
  Ret (VDict (dict_of_items items)).

Fixpoint generate_value (field_type : pytype) (metadata : gmap string value)
  {struct field_type} : gen value :=
  match field_type with
  | TAny => any_rule
  | TSpecial _ => Ret VNone
  | TAlias OUnion args =>
      if existsb is_NoneType args then
        with_first_non_none
          (fun non_none_type =>
             let* v := generate_value non_none_type metadata in
             choice [VNone; v])
          args
      else Ret VNone
  | TAlias Olist args =>
      let* l := repeat_gen 3 (match args with
                              | sub_type :: _ => generate_value sub_type metadata
                              | [] => any_rule
                              end) in
      Ret (VList l)
  | TAlias Odict args =>
      match args with
      | [] => dict_rule any_rule
      | [_; value_type] => dict_rule (generate_value value_type metadata)
      | _ => Raise ValueError
      end
  | TAlias Otuple args =>
      let* l := map_gen (fun t => generate_value t metadata) args in
      Ret (VTuple l)
  | TAlias Oother _ => Ret VNone
  | TBuiltin c => builtin_rule c true metadata
  | TSubclass c _ => builtin_rule c false metadata
  | TEnum _ members => choice members
  | TRootModel (Some root_type) => generate_value root_type metadata
  | TRootModel None => any_rule
  | TModel fields =>
      let* items :=
        map_gen (fun field =>
                   let '(field_name, (annotation, field_metadata)) := field in
                   let* v := generate_value annotation
                               (extract_metadata field_metadata) in
                   Ret (field_name, v))
                fields in
      Ret (VDict (dict_of_items items))
  end.

(** *** The source, test by test

    [generate_value] above recurses on the structure of the declared type.
    The two bodies below follow [main.py] line by line instead, with the
    recursive calls as parameters; [generate_value_unfold] proves that the
    structural definition is a fixed point of them. *)

Definition model_fields (t : pytype)
  : option (list (string * (pytype * list annotation))) :=
  match t with TModel fields => Some fields | _ => None end.

Definition generate_dummy_instance_body
  (generate_value : pytype -> gmap string value -> gen value)
  (model : pytype) : gen value :=
  if negb (isinstance_type model) then Raise TypeError
  else if issubclass model BRootModel then
    let root_type := root_annotation model in
    generate_value root_type ∅
  else
    match model_fields model with
    | None => Raise AttributeError
    | Some fields =>
        let* items :=
          map_gen (fun field =>
                     let '(field_name, (annotation, field_metadata)) := field in
                     let* v := generate_value annotation
                                 (extract_metadata field_metadata) in
                     Ret (field_name, v))
                  fields in
        Ret (VDict (dict_of_items items))
    end.

Definition generate_value_body
  (generate_value : pytype -> gmap string value -> gen value)
  (generate_dummy_instance : pytype -> gen value)
  (field_type : pytype) (metadata : gmap string value) : gen value :=
  let origin := get_origin field_type in
  let args := get_args field_type in
  (* Optional[X] *)
  if origin_is origin OUnion && existsb is_NoneType args then
    with_first_non_none
      (fun non_none_type =>
         let* v := generate_value non_none_type metadata in
         choice [VNone; v])
      args
  (* root models *)
  else if isinstance_type field_type && issubclass field_type BRootModel then
    let root_type := root_annotation field_type in
    generate_value root_type metadata
  (* nested models *)
  else if isinstance_type field_type && issubclass field_type BBaseModel then
    generate_dummy_instance field_type
  (* enumerations *)
  else if isinstance_type field_type && issubclass field_type BEnum then
    choice (enum_members field_type)
  (* lists *)
  else if origin_is origin Olist then
    let sub_type := match args with a :: _ => a | [] => TAny end in
    let* l := repeat_gen 3 (generate_value sub_type metadata) in
    Ret (VList l)
  (* dicts *)
  else if origin_is origin Odict then
    match (match args with [] => [TBuiltin Cstr; TAny] | _ => args end) with
    | [_; value_type] => dict_rule (generate_value value_type metadata)
    | _ => Raise ValueError
    end
  (* tuples *)
  else if origin_is origin Otuple then
    let* l := map_gen (fun t => generate_value t metadata) args in
    Ret (VTuple l)
  (* bool, ahead of the other primitive types *)
  else if is_builtin field_type Cbool
          || (isinstance_type field_type && issubclass field_type Bbool) then
    let* b := boolean in Ret (VBool b)
  (* constrained types *)
  else if isinstance_type field_type && issubclass field_type Bint then
    int_rule metadata
  else if isinstance_type field_type && issubclass field_type Bfloat then
    float_rule metadata
  else if isinstance_type field_type && issubclass field_type Bstr then
    str_rule metadata
  (* default fallback *)
  else if is_builtin field_type Cstr then
    let* s := sentence in Ret (VStr s)
  else if is_builtin field_type Cint then
    random_int (VInt 1) (VInt 1000)
  else if is_builtin field_type Cfloat then
    let* x := pyfloat in Ret (VFloat (round2 x))
  else if is_builtin field_type Clist then
    word_list_rule
  else if is_Any field_type then
    any_rule
  else Ret VNone.

Definition generate_dummy_instance : pytype -> gen value :=
  generate_dummy_instance_body generate_value.

(** ** Serialization

    [json.dumps] and [json.loads] belong to the standard library.  They work
    in two steps each, modelled apart.  The conversion tables between Python
    values and JSON documents are spelled out: tuples and lists are both
    written as arrays, arrays are read back as lists, and an object is read
    back by inserting its members in order.  The characters of the text
    (indentation, escapes, number syntax) stay with the library: all that is
    asked of them is that reading what was written gives the document
    back. *)

Inductive json : Type :=
| JNull
| JBool (b : bool)
| JInt (z : Z)
| JFloat (f : float)
| JString (s : string)
| JArray (items : list json)
| JObject (members : list (string * json)).

Fixpoint to_json (v : value) : json :=
  match v with
  | VNone => JNull
  | VBool b => JBool b
  | VInt z => JInt z
  | VFloat f => JFloat f
  | VStr s => JString s
  | VList l => JArray (map to_json l)
  | VTuple l => JArray (map to_json l)
  | VDict d => JObject (map (fun kv => (kv.1, to_json kv.2)) d)
  end.

Fixpoint of_json (j : json) : value :=
  match j with
  | JNull => VNone
  | JBool b => VBool b
  | JInt z => VInt z
  | JFloat f => VFloat f
  | JString s => VStr s
  | JArray items => VList (map of_json items)
  | JObject members =>
      VDict (dict_of_items (map (fun kv => (kv.1, of_json kv.2)) members))
  end.

Class JsonSyntax : Type := {
  json_text : Type;
  encode : json -> json_text;
  decode : json_text -> option json;
  decode_encode : forall j : json, decode (encode j) = Some j
}.

Context {syntax : JsonSyntax}.

(** [json.dumps(obj, indent=4)] *)
Definition dumps (obj : value) : json_text := encode (to_json obj).

(** [json.loads(s)]; a [JSONDecodeError] is a [ValueError]. *)
Definition loads (s : json_text) : result value :=
  match decode s with
  | Some j => Ok (of_json j)
  | None => Err ValueError
  end.

(** Lines 123-125. *)
Definition generate_dummy_data (model : pytype) : gen json_text :=
  let* dummy_instance := generate_dummy_instance model in
  Ret (dumps dummy_instance).

(** ** Notions used by the properties *)

(** A Python dict never holds a key twice. *)
Fixpoint wf_value (v : value) : bool :=
  match v with
  | VList l | VTuple l => forallb wf_value l
  | VDict d =>
      bool_decide (NoDup (dict_keys d)) && forallb (fun kv => wf_value kv.2) d
  | _ => true
  end.

(** The stored values of every enumeration in a declared type are
    well-formed values. *)
Fixpoint wf_pytype (t : pytype) : bool :=
  match t with
  | TAlias _ args => forallb wf_pytype args
  | TEnum _ members => forallb wf_value members
  | TRootModel (Some r) => wf_pytype r
  | TModel fields => forallb (fun field => wf_pytype field.2.1) fields
  | _ => true
  end.

(** The same tree with every tuple turned into the list of its elements. *)
Fixpoint listify (v : value) : value :=
  match v with
  | VList l | VTuple l => VList (map listify l)
  | VDict d => VDict (map (fun kv => (kv.1, listify kv.2)) d)
  | _ => v
  end.

Fixpoint has_tuple (v : value) : bool :=
  match v with
  | VTuple _ => true
  | VList l => existsb has_tuple l
  | VDict d => existsb (fun kv => has_tuple kv.2) d
  | _ => false
  end.

Definition is_scalar (v : value) : bool :=
  match v with
  | VNone | VBool _ | VInt _ | VFloat _ | VStr _ => true
  | _ => false
  end.

(** Structural identity of a value and what is read back for it: equal
    scalars; for tuples and sequences the same elements in the same order;
    for records and mappings the same keys, in the same order, with
    structurally identical values. *)
Inductive struct_same : value -> value -> Prop :=
| same_scalar (v : value) :
    is_scalar v = true -> struct_same v v
| same_list (l l' : list value) :
    Forall2 struct_same l l' -> struct_same (VList l) (VList l')
| same_tuple (l l' : list value) :
    Forall2 struct_same l l' -> struct_same (VTuple l) (VList l')
| same_dict (d d' : list (string * value)) :
    dict_keys d = dict_keys d' ->
    Forall2 struct_same (map snd d) (map snd d') ->
    struct_same (VDict d) (VDict d').

(** Every outcome of a computation that returns satisfies [P]. *)
Fixpoint always {A : Type} (P : A -> Prop) (x : gen A) : Prop :=
  match x with
  | Ret a => P a
  | Raise _ => True
  | Draw k => forall d, always P (k d)
  end.

(** Every outcome of a computation returns, with a result satisfying [P]. *)
Fixpoint surely {A : Type} (P : A -> Prop) (x : gen A) : Prop :=
  match x with
  | Ret a => P a
  | Raise _ => False
  | Draw k => forall d, surely P (k d)
  end.

(** Some outcome of the random source makes the computation return [a]. *)
Definition can_return {A : Type} (x : gen A) (a : A) : Prop :=
  exists tape, (run x tape).1 = Ok a.

(** Fields that reach the primitive rules: a class deriving from [int]
    (from [str], from [bool]) that no earlier rule takes. *)
Definition int_typed (t : pytype) : bool :=
  isinstance_type t && issubclass t Bint
  && negb (issubclass t Bbool) && negb (issubclass t BEnum).

Definition str_typed (t : pytype) : bool :=
  isinstance_type t && issubclass t Bstr && negb (issubclass t BEnum).

Definition bool_typed (t : pytype) : bool :=
  is_builtin t Cbool
  || (isinstance_type t && issubclass t Bbool && negb (issubclass t BEnum)).

(** The integer bounds as the specification derives them. *)
Definition int_bounds (metadata : gmap string value) : bool :=
  forallb (fun key => match metadata !! key with
                      | None | Some (VInt _) => true
                      | Some _ => false
                      end)
          ["gt"; "ge"; "lt"; "le"].

Definition spec_lo (metadata : gmap string value) : Z :=
  match metadata !! "ge" with
  | Some (VInt ge) => ge
  | _ => match metadata !! "gt" with
         | Some (VInt gt) => gt + 1
         | _ => 2
         end
  end.

Definition spec_hi (metadata : gmap string value) : Z :=
  match metadata !! "le" with
  | Some (VInt le) => le
  | _ => match metadata !! "lt" with
         | Some (VInt lt) => lt - 1
         | _ => 999
         end
  end.

(** The names the extractor can emit: the attributes of the two annotation
    kinds it knows. *)
Definition recognized_names : list string :=
  [ "strip_whitespace"; "to_upper"; "to_lower"; "strict";
    "min_length"; "max_length"; "pattern"; "gt"; "ge"; "lt"; "le" ].

Definition is_other (item : annotation) : bool :=
  match item with AOther _ => true | _ => false end.

(** [name] is an attribute of the annotation object [item], of one of the
    two kinds the extractor knows, and holds [v]. *)
Definition attribute_of (item : annotation) (name : string) (v : value) : Prop :=
  match item with
  | AStringConstraints c => In (name, v) (sc_dict c)
  | AInterval i =>
      In name ["gt"; "ge"; "lt"; "le"] /\ interval_attr i name = Some v
  | AOther _ => False
  end.

(** The conditions of the rules of [generate_value], in source order. *)
Definition rule_conditions (t : pytype) : list bool :=
  [ origin_is (get_origin t) OUnion && existsb is_NoneType (get_args t);
    isinstance_type t && issubclass t BRootModel;
    isinstance_type t && issubclass t BBaseModel;
    isinstance_type t && issubclass t BEnum;
    origin_is (get_origin t) Olist;
    origin_is (get_origin t) Odict;
    origin_is (get_origin t) Otuple;
    is_builtin t Cbool || (isinstance_type t && issubclass t Bbool);
    isinstance_type t && issubclass t Bint;
    isinstance_type t && issubclass t Bfloat;
    isinstance_type t && issubclass t Bstr;
    is_builtin t Cstr;
    is_builtin t Cint;
    is_builtin t Cfloat;
    is_builtin t Clist;
    is_Any t ].

Definition no_rule_matches (t : pytype) : bool :=
  forallb negb (rule_conditions t).

(** Shorthands for common declared types: [int], [str], [Optional[t]]. *)
Definition TInt : pytype := TBuiltin Cint.
Definition TStr : pytype := TBuiltin Cstr.
Definition TBool : pytype := TBuiltin Cbool.
Definition TFloat : pytype := TBuiltin Cfloat.
Definition TNoneType : pytype := TBuiltin CNoneType.
Definition TOptional (t : pytype) : pytype := TAlias OUnion [t; TNoneType].

End Synthesis.

(** ** A concrete fake-data source, for running the embedding

    Floats are counted in hundredths; words come from a four-word list. *)

Definition demo_words : list string := ["alpha"; "bravo"; "charlie"; "delta"].

Definition demo_fake : FakeSource := {|
  float := Z;
  float_of_int := fun z => (100 * z)%Z;
  float_add := Z.add;
  float_sub := Z.sub;
  float_tenth := 10%Z;
  round2 := fun x => x;
  pyfloat_any := fun d => Z.of_nat d;
  pyfloat_between := fun a b d =>
    if (a <? b)%Z then Some (a + Z.of_nat d mod (b - a + 1))%Z else None;
  word_of := fun d => nth (d mod 4) demo_words "";
  sentence_of := fun d =>
    (String.concat " " (map (fun i => nth ((d + i) mod 4) demo_words "")
                            [0; 1; 2; 3]%nat) ++ ".")%string;
  text_of := fun n d =>
    substring 0 (Z.to_nat n) "Lorem ipsum dolor sit amet consectetur."
|}.

(** JSON documents standing for their own text. *)
Definition demo_syntax : @JsonSyntax demo_fake := {|
  json_text := @json demo_fake;
  encode := fun j => j;
  decode := fun s => Some s;
  decode_encode := fun j => eq_refl
|}.

(** The models of the module's test suite. *)

Definition conint (gt ge lt le : @value demo_fake) : list (@annotation demo_fake) :=
  [ AOther "Strict";
    AInterval {| iv_gt := gt; iv_ge := ge; iv_lt := lt; iv_le := le |};
    AOther "MultipleOf" ].

Definition constr (min_length max_length : @value demo_fake)
  : list (@annotation demo_fake) :=
  [ AStringConstraints
      {| sc_strip_whitespace := VNone; sc_to_upper := VNone;
         sc_to_lower := VNone; sc_strict := VNone;
         sc_min_length := min_length; sc_max_length := max_length;
         sc_pattern := VNone |} ].

Definition UserRole : @pytype demo_fake :=
  TEnum None [VStr "admin"; VStr "user"; VStr "guest"].

Definition Address_fields
  : list (string * (@pytype demo_fake * list (@annotation demo_fake))) :=
  [ ("city", (TStr, []));
    ("zip_code", (TInt, conint (VInt 1000) VNone (VInt 9999) VNone)) ].

Definition Address : @pytype demo_fake := TModel Address_fields.

Definition User : @pytype demo_fake :=
  TModel [ ("id", (TInt, conint VNone (VInt 100) VNone (VInt 999)));
           ("name", (TStr, constr (VInt 5) (VInt 15)));
           ("age", (TOptional TInt, []));
           ("active", (TBool, []));
           ("tags", (TAlias Olist [TStr], []));
           ("metadata", (TAlias Odict [TStr; TAny], []));
           ("address", (Address, []));
           ("coordinates", (TAlias Otuple [TFloat; TFloat], []));
           ("role", (UserRole, [])) ].

Definition EmptyModel : @pytype demo_fake := TModel [].

Definition UnionModel : @pytype demo_fake :=
  TModel [ ("mixed_field", (TAlias OUnion [TInt; TStr], [])) ].

(** Constraint mappings as the extractor yields them. *)
Definition bounds_100_999 : gmap string (@value demo_fake) :=
  extract_metadata (conint VNone (VInt 100) VNone (VInt 999)).

Definition bounds_5_1 : gmap string (@value demo_fake) :=
  extract_metadata (conint VNone (VInt 5) VNone (VInt 1)).

Definition length_10_10 : gmap string (@value demo_fake) :=
  extract_metadata (constr (VInt 10) (VInt 10)).

Definition length_1_3 : gmap string (@value demo_fake) :=
  extract_metadata (constr (VInt 1) (VInt 3)).

(** ** Further notions: runs in sequence, accepted constraints *)

(** Running the computations [xs] one after the other from [tape] yields the
    results [l], in order, and leaves [tape']. *)
Fixpoint successive {A : Type} (xs : list (gen A)) (tape : list nat)
  (l : list A) (tape' : list nat) : Prop :=
  match xs, l with
  | [], [] => tape' = tape
  | x :: xs', a :: l' =>
      exists tape1, run x tape = (Ok a, tape1) /\ successive xs' tape1 l' tape'
  | _, _ => False
  end.

(** A computation that reads exactly [n] cells of the tape, whatever they
    hold, and then returns a result satisfying [P]. *)
Fixpoint reads {A : Type} (n : nat) (P : A -> Prop) (x : gen A) : Prop :=
  match n, x with
  | O, Ret a => P a
  | S n', Draw k => forall d, reads n' P (k d)
  | _, _ => False
  end.

Section Accepted.

Context {fake : FakeSource}.

(** What an attribute contributes to the extractor's output. *)
Definition set_value (v : value) : option value :=
  if is_not_none v then Some v else None.

(** The length bounds of lines 87-88, when both are integers. *)
Definition text_bounds (metadata : gmap string value) : option (Z * Z) :=
  match int_of (dict_get metadata "min_length" (VInt 5)),
        int_of (dict_get metadata "max_length" (VInt 15)) with
  | Some min_length, Some max_length => Some (min_length, max_length)
  | _, _ => None
  end.

Definition float_typed (t : pytype) : bool :=
  isinstance_type t && issubclass t Bfloat && negb (issubclass t BEnum).

(** Constraint mappings under which the integer rule, and the text rule,
    cannot raise. *)
Definition int_ok (metadata : gmap string value) : bool :=
  int_bounds metadata && (spec_lo metadata <=? spec_hi metadata)%Z.

Definition str_ok (metadata : gmap string value) : bool :=
  match text_bounds metadata with
  | Some (min_length, max_length) =>
      (min_length =? max_length)%Z || (5 <=? max_length)%Z
  | None => false
  end.

(** [accept] holds of the first alternative that is not [type(None)]. *)
Definition first_accepted (accept : pytype -> bool) : list pytype -> bool :=
  fix go (args : list pytype) : bool :=
    match args with
    | [] => false
    | t :: args' => if is_NoneType t then go args' else accept t
    end.

(** Declared types that can be synthesized under [metadata] whatever the
    random source answers.  Floating-point fields are left out: whether
    Faker accepts their range is not decided here. *)
Fixpoint accepted (t : pytype) (metadata : gmap string value) : bool :=
  match t with
  | TAny | TSpecial _ => true
  | TAlias OUnion args =>
      negb (existsb is_NoneType args)
      || first_accepted (fun a => accepted a metadata) args
  | TAlias Olist args =>
      match args with
      | sub_type :: _ => accepted sub_type metadata
      | [] => true
      end
  | TAlias Odict args =>
      match args with
      | [] => true
      | [_; value_type] => accepted value_type metadata
      | _ => false
      end
  | TAlias Otuple args => forallb (fun a => accepted a metadata) args
  | TAlias Oother _ => true
  | TBuiltin c | TSubclass c _ =>
      match c with
      | Cint => int_ok metadata
      | Cstr => str_ok metadata
      | Cfloat => false
      | _ => true
      end
  | TEnum _ members => match members with [] => false | _ => true end
  | TRootModel (Some root_type) => accepted root_type metadata
  | TRootModel None => true
  | TModel fields =>
      forallb (fun field => accepted field.2.1 (extract_metadata field.2.2))
              fields
  end.

(** The kinds of value line 106 chooses among. *)
Definition any_kind (v : value) : Prop :=
  (exists s, v = VStr s)
  \/ (exists z, v = VInt z /\ (1 <= z <= 1000)%Z)
  \/ (exists f, v = VFloat f).

(** An [Interval] with the given integer bounds, unset where [None]. *)
Definition bound (b : option Z) : value :=
  match b with Some z => VInt z | None => VNone end.

Definition interval (gt ge lt le : option Z) : Interval :=
  {| iv_gt := bound gt; iv_ge := bound ge; iv_lt := bound lt; iv_le := bound le |}.

(** The position of the first test of a cascade that succeeds. *)
Definition first_true : list bool -> option nat :=
  fix go (l : list bool) : option nat :=
    match l with
    | [] => None
    | b :: l' => if b then Some O else S <$> go l'
    end.

(** The rule of [generate_value] that takes a declared type, counted from 0
    in source order. *)
Definition first_rule (t : pytype) : option nat := first_true (rule_conditions t).

(** What each rule of [generate_value] returns, in source order. *)
Definition rule_results
  (generate_value : pytype -> gmap string value -> gen value)
  (generate_dummy_instance : pytype -> gen value)
  (field_type : pytype) (metadata : gmap string value) : list (gen value) :=
  let args := get_args field_type in
  [ with_first_non_none
      (fun non_none_type =>
         let* v := generate_value non_none_type metadata in
         choice [VNone; v])
      args;
    generate_value (root_annotation field_type) metadata;
    generate_dummy_instance field_type;
    choice (enum_members field_type);
    (let sub_type := match args with a :: _ => a | [] => TAny end in
     let* l := repeat_gen 3 (generate_value sub_type metadata) in
     Ret (VList l));
    match (match args with [] => [TBuiltin Cstr; TAny] | _ => args end) with
    | [_; value_type] => dict_rule (generate_value value_type metadata)
    | _ => Raise ValueError
    end;
    (let* l := map_gen (fun t => generate_value t metadata) args in
     Ret (VTuple l));
    (let* b := boolean in Ret (VBool b));
    int_rule metadata;
    float_rule metadata;
    str_rule metadata;
    (let* s := sentence in Ret (VStr s));
    random_int (VInt 1) (VInt 1000);
    (let* x := pyfloat in Ret (VFloat (round2 x)));
    word_list_rule;
    any_rule ].

End Accepted.

(** * Properties *)

(** ** Running computations *)

Lemma run_bind {A B : Type} (x : gen A) (f : A -> gen B) (tape : list nat) :
  run (bind x f) tape
  = match run x tape with
    | (Ok a, tape') => run (f a) tape'
    | (Err e, tape') => (Err e, tape')
    end.
Proof.
  revert tape. induction x as [a | e | k IH]; intros tape; simpl.
  - reflexivity.
  - reflexivity.
  - apply IH.
Qed.

Lemma run_bind_ok {A B : Type} (x : gen A) (f : A -> gen B)
  (tape tape' : list nat) (a : A) :
  run x tape = (Ok a, tape') -> run (bind x f) tape = run (f a) tape'.
Proof. intros H. rewrite run_bind, H. reflexivity. Qed.

Lemma run_bind_inv {A B : Type} (x : gen A) (f : A -> gen B)
  (tape tape2 : list nat) (b : B) :
  run (bind x f) tape = (Ok b, tape2) ->
  exists a tape1, run x tape = (Ok a, tape1) /\ run (f a) tape1 = (Ok b, tape2).
Proof.
  rewrite run_bind. destruct (run x tape) as [[a | e] tape1]; intros H.
  - exists a, tape1. split; [reflexivity | exact H].
  - discriminate H.
Qed.

Lemma run_bind_err_inv {A B : Type} (x : gen A) (f : A -> gen B)
  (tape tape2 : list nat) (e : exn) :
  run (bind x f) tape = (Err e, tape2) ->
  run x tape = (Err e, tape2)
  \/ exists a tape1, run x tape = (Ok a, tape1) /\ run (f a) tape1 = (Err e, tape2).
Proof.
  rewrite run_bind. destruct (run x tape) as [[a | e'] tape1]; intros H.
  - right. exists a, tape1. split; [reflexivity | exact H].
  - left. inversion H. reflexivity.
Qed.

(** What a run leaves unread can be replaced by anything. *)
Lemma run_retape {A : Type} (x : gen A) (tape rest rest' : list nat) (a : A) :
  run x tape = (Ok a, rest) -> exists tape', run x tape' = (Ok a, rest').
Proof.
  revert tape. induction x as [a0 | e | k IH]; intros tape; simpl; intros H.
  - exists rest'. simpl. congruence.
  - discriminate H.
  - destruct (IH _ _ H) as [tape' H'].
    exists (hd 0%nat tape :: tape'). exact H'.
Qed.

(** ** Computations that cannot raise *)

Lemma nth_Forall {A : Type} (P : A -> Prop) (l : list A) (i : nat) (a : A) :
  P a -> Forall P l -> P (nth i l a).
Proof.
  intros Ha Hl. revert i. induction Hl as [| x l Hx _ IH]; intros [| i]; simpl; auto.
Qed.

Lemma surely_mono {A : Type} (P Q : A -> Prop) (x : gen A) :
  (forall a, P a -> Q a) -> surely P x -> surely Q x.
Proof.
  intros HPQ. induction x as [a | e | k IH]; simpl; intros H.
  - apply HPQ, H.
  - exact H.
  - intros d. apply IH, H.
Qed.

Lemma surely_bind {A B : Type} (Q : A -> Prop) (P : B -> Prop)
  (x : gen A) (f : A -> gen B) :
  surely Q x -> (forall a, Q a -> surely P (f a)) -> surely P (bind x f).
Proof.
  intros Hx Hf. induction x as [a | e | k IH]; simpl in *.
  - apply Hf, Hx.
  - exact Hx.
  - intros d. apply IH, Hx.
Qed.

Lemma surely_run {A : Type} (P : A -> Prop) (x : gen A) (tape : list nat) :
  surely P x -> exists a tape', run x tape = (Ok a, tape') /\ P a.
Proof.
  revert tape. induction x as [a | e | k IH]; simpl; intros tape Hx.
  - exists a, tape. split; [reflexivity | exact Hx].
  - destruct Hx.
  - apply IH, Hx.
Qed.

Lemma surely_repeat_gen {A : Type} (P : A -> Prop) (n : nat) (x : gen A) :
  surely P x ->
  surely (fun l => List.length l = n /\ Forall P l) (repeat_gen n x).
Proof.
  intros Hx. induction n as [| n IH]; simpl.
  - split; [reflexivity | constructor].
  - apply (surely_bind P); [exact Hx |]. intros a Ha.
    eapply surely_bind; [exact IH |]. intros l [Hlen Hl].
    simpl. split; [congruence | constructor; assumption].
Qed.

Lemma surely_choice {A : Type} (P : A -> Prop) (l : list A) :
  l <> [] -> Forall P l -> surely P (choice l).
Proof.
  intros Hne Hl. destruct l as [| a l]; [congruence |].
  change (forall d, P (nth (d mod List.length (a :: l)) (a :: l) a)).
  intros d. apply nth_Forall; [| exact Hl]. inversion Hl; assumption.
Qed.

Lemma surely_randrange (a b : Z) :
  (a < b)%Z -> surely (fun x => (a <= x < b)%Z) (randrange a b).
Proof.
  intros Hab. unfold randrange.
  destruct (Z.ltb_spec a b) as [_ | Hge]; [| lia].
  simpl. intros d.
  pose proof (Z.mod_pos_bound (Z.of_nat d) (b - a)). lia.
Qed.

(** ** Invariants of all outcomes *)

Lemma always_mono {A : Type} (P Q : A -> Prop) (x : gen A) :
  (forall a, P a -> Q a) -> always P x -> always Q x.
Proof.
  intros HPQ. induction x as [a | e | k IH]; simpl; intros H.
  - apply HPQ, H.
  - exact I.
  - intros d. apply IH, H.
Qed.

Lemma always_bind {A B : Type} (Q : A -> Prop) (P : B -> Prop)
  (x : gen A) (f : A -> gen B) :
  always Q x -> (forall a, Q a -> always P (f a)) -> always P (bind x f).
Proof.
  intros Hx Hf. induction x as [a | e | k IH]; simpl in *.
  - apply Hf, Hx.
  - exact I.
  - intros d. apply IH, Hx.
Qed.

Lemma always_run {A : Type} (P : A -> Prop) (x : gen A)
  (tape tape' : list nat) (a : A) :
  always P x -> run x tape = (Ok a, tape') -> P a.
Proof.
  revert tape. induction x as [a0 | e | k IH]; simpl; intros tape Hx H.
  - inversion H. subst. exact Hx.
  - discriminate H.
  - eapply IH; [apply Hx | exact H].
Qed.

Lemma always_true {A : Type} (x : gen A) : always (fun _ => True) x.
Proof. induction x; simpl; auto. Qed.

Lemma always_repeat_gen {A : Type} (P : A -> Prop) (n : nat) (x : gen A) :
  always P x -> always (Forall P) (repeat_gen n x).
Proof.
  intros Hx. induction n as [| n IH]; simpl.
  - constructor.
  - apply (always_bind P); [exact Hx |]. intros a Ha.
    apply (always_bind (Forall P)); [exact IH |]. intros l Hl.
    simpl. constructor; assumption.
Qed.

Lemma always_map_gen {A B : Type} (P : B -> Prop) (f : A -> gen B) (l : list A) :
  Forall (fun a => always P (f a)) l -> always (Forall P) (map_gen f l).
Proof.
  induction 1 as [| a l Ha _ IH]; simpl.
  - constructor.
  - apply (always_bind P); [exact Ha |]. intros b Hb.
    apply (always_bind (Forall P)); [exact IH |]. intros bs Hbs.
    simpl. constructor; assumption.
Qed.

Lemma always_choice {A : Type} (P : A -> Prop) (l : list A) :
  Forall P l -> always P (choice l).
Proof.
  intros Hl. destruct l as [| a l]; [exact I |].
  change (forall d, P (nth (d mod List.length (a :: l)) (a :: l) a)).
  intros d. apply nth_Forall; [| exact Hl]. inversion Hl; assumption.
Qed.

(** ** What a computation can return *)

Lemma can_return_bind_iff {A B : Type} (x : gen A) (f : A -> gen B) (b : B) :
  can_return (bind x f) b <-> exists a, can_return x a /\ can_return (f a) b.
Proof.
  split.
  - intros [tape H]. destruct (run (bind x f) tape) as [r tape2] eqn:E.
    simpl in H. subst r. apply run_bind_inv in E.
    destruct E as (a & tape1 & Hx & Hf). exists a. split.
    + exists tape. rewrite Hx. reflexivity.
    + exists tape1. rewrite Hf. reflexivity.
  - intros (a & [tape Hx] & [tape2 Hf]).
    destruct (run x tape) as [r rest] eqn:E. simpl in Hx. subst r.
    destruct (run_retape x tape rest tape2 a E) as [tape' H'].
    exists tape'. rewrite (run_bind_ok _ _ _ _ _ H'). exact Hf.
Qed.

Lemma can_return_choice_pair {A : Type} (a b c : A) :
  can_return (choice [a; b]) c <-> c = a \/ c = b.
Proof.
  split.
  - intros [tape H].
    change (Ok (nth (hd 0%nat tape mod 2) [a; b] a) = Ok c) in H.
    pose proof (Nat.mod_upper_bound (hd 0%nat tape) 2) as Hlt.
    destruct (hd 0%nat tape mod 2)%nat as [| [| n]]; simpl in H.
    + left. congruence.
    + right. congruence.
    + lia.
  - intros [-> | ->]; [exists [0%nat] | exists [1%nat]]; reflexivity.
Qed.

Section Properties.

Context {fake : FakeSource} {syntax : JsonSyntax}.

(** ** The structural definition is the source's *)

Lemma generate_value_unfold (field_type : pytype) (metadata : gmap string value) :
  generate_value field_type metadata
  = generate_value_body generate_value generate_dummy_instance
      field_type metadata.
Proof.
  destruct field_type
    as [| name | o args | c | c name | mixin members | root | fields].
  - reflexivity.
  - reflexivity.
  - destruct o; try reflexivity.
    + destruct args; reflexivity.
    + destruct args as [| a [| b [| c l]]]; reflexivity.
  - destruct c; reflexivity.
  - destruct c; reflexivity.
  - destruct mixin as [[]|]; reflexivity.
  - destruct root; reflexivity.
  - reflexivity.
Qed.

(** A nested model is synthesized by [generate_dummy_instance], the
    recursion of the source through lines 51-52. *)
Lemma generate_value_model (fields : list (string * (pytype * list annotation)))
  (metadata : gmap string value) :
  generate_value (TModel fields) metadata = generate_dummy_instance (TModel fields).
Proof. reflexivity. Qed.

(** ** The constraint extractor *)

Lemma extract_item_lookup (acc : gmap string value) (item : annotation)
  (k : string) (v : value) :
  extract_item acc item !! k = Some v ->
  acc !! k = Some v \/ attribute_of item k v.
Proof.
  destruct item as [c | i | kind]; simpl; intros H.
  - unfold dict_update, sc_dict in H. simpl in H.
    repeat (apply lookup_insert_Some in H;
            destruct H as [[<- <-] | [_ H]]; [right; simpl; tauto |]).
    left. exact H.
  - repeat (apply lookup_insert_Some in H;
            destruct H as [[<- <-] | [_ H]];
            [right; split; [simpl; tauto | reflexivity] |]).
    left. exact H.
  - left. exact H.
Qed.

Lemma extract_loop_lookup (metadata : list annotation) (acc : gmap string value)
  (k : string) (v : value) :
  foldl extract_item acc metadata !! k = Some v ->
  acc !! k = Some v \/ exists item, In item metadata /\ attribute_of item k v.
Proof.
  revert acc. induction metadata as [| item metadata IH]; intros acc; simpl.
  - auto.
  - intros H. destruct (IH _ H) as [H' | (item' & Hin & Hattr)].
    + destruct (extract_item_lookup _ _ _ _ H') as [Hacc | Hattr].
      * left. exact Hacc.
      * right. exists item. split; [left; reflexivity | exact Hattr].
    + right. exists item'. split; [right; exact Hin | exact Hattr].
Qed.

Lemma attribute_of_recognized (item : annotation) (k : string) (v : value) :
  attribute_of item k v -> k ∈ recognized_names.
Proof.
  destruct item as [c | i | kind]; simpl.
  - intros H. apply list_elem_of_In.
    repeat (destruct H as [H | H]; [inversion H; subst; simpl; tauto |]).
    destruct H.
  - intros [H _]. apply list_elem_of_In.
    repeat (destruct H as [H | H]; [subst; simpl; tauto |]).
    destruct H.
  - intros [].
Qed.

Lemma extract_loop_skips_other (metadata : list annotation) (acc : gmap string value) :
  foldl extract_item acc (List.filter (fun item => negb (is_other item)) metadata)
  = foldl extract_item acc metadata.
Proof.
  revert acc. induction metadata as [| item metadata IH]; intros acc; simpl.
  - reflexivity.
  - destruct item as [c | i | kind]; simpl; apply IH.
Qed.

(** C5.  The extractor is a total function.  Every entry of its output is
    an attribute of an annotation object of the input that is of one of the
    two kinds it recognizes; its name is therefore one of the recognized
    names (the attributes of a text-constraint annotation and the four
    numeric bounds), and its value is not [None].  Annotation objects of any
    other kind do not change the output; an empty annotation list, or a list
    holding only objects of unknown kinds, yields the empty mapping. *)
Theorem extract_metadata_recognized_non_null :
  (forall (metadata : list annotation) (k : string) (v : value),
      extract_metadata metadata !! k = Some v ->
      k ∈ recognized_names
      /\ v <> VNone
      /\ exists item, In item metadata /\ attribute_of item k v)
  /\ (forall (before after : list annotation) (kind : string),
         extract_metadata (before ++ AOther kind :: after)
         = extract_metadata (before ++ after))
  /\ (forall metadata : list annotation,
         forallb is_other metadata = true -> extract_metadata metadata = ∅)
  /\ extract_metadata [] = ∅.
Proof.
  split; [| split; [| split]].
  - intros metadata k v H. unfold extract_metadata in H.
    apply map_lookup_filter_Some in H. destruct H as [H Hv]. simpl in Hv.
    destruct (extract_loop_lookup metadata ∅ k v H) as [H' | (item & Hin & Hattr)].
    + rewrite lookup_empty in H'. discriminate H'.
    + split; [exact (attribute_of_recognized item k v Hattr) | split].
      * intros ->. discriminate Hv.
      * exists item. split; assumption.
  - intros before after kind. unfold extract_metadata.
    rewrite !foldl_app. reflexivity.
  - intros metadata Hall. unfold extract_metadata.
    rewrite <- extract_loop_skips_other.
    replace (List.filter (fun item => negb (is_other item)) metadata)
      with (@nil annotation).
    + simpl. apply map_filter_empty.
    + induction metadata as [| item metadata IH]; simpl in *; [reflexivity |].
      apply andb_prop in Hall. destruct Hall as [Hitem Hall].
      rewrite Hitem. simpl. apply IH, Hall.
  - unfold extract_metadata. simpl. apply map_filter_empty.
Qed.

(** ** Integers *)

Lemma random_int_surely (lo hi : Z) :
  (lo <= hi)%Z ->
  surely (fun v => exists x, v = VInt x /\ (lo <= x <= hi)%Z)
         (random_int (VInt lo) (VInt hi)).
Proof.
  intros Hle. unfold random_int. simpl.
  apply (surely_bind (fun x => (lo <= x < hi + 1)%Z)).
  - apply surely_randrange. lia.
  - intros x Hx. simpl. exists x. split; [reflexivity | lia].
Qed.

(** With integer bounds, lines 79-81 draw from the interval the
    specification derives. *)
Lemma int_rule_spec (metadata : gmap string value) :
  int_bounds metadata = true ->
  int_rule metadata
  = random_int (VInt (spec_lo metadata)) (VInt (spec_hi metadata)).
Proof.
  unfold int_bounds, int_rule, spec_lo, spec_hi, dict_get. simpl.
  intros H.
  destruct (metadata !! "gt") as [[| | gt | | | | |] |];
    try discriminate H;
    (destruct (metadata !! "ge") as [[| | ge | | | | |] |];
     try discriminate H;
     (destruct (metadata !! "lt") as [[| | lt | | | | |] |];
      try discriminate H;
      (destruct (metadata !! "le") as [[| | le | | | | |] |];
       try discriminate H; reflexivity))).
Qed.

Lemma int_typed_inv (t : pytype) :
  int_typed t = true ->
  t = TBuiltin Cint \/ exists name, t = TSubclass Cint name.
Proof.
  destruct t as [| name | o args | c | c name | mixin members | root | fields];
    try discriminate.
  - destruct c; try discriminate. intros _. left. reflexivity.
  - destruct c; try discriminate. intros _. right. exists name. reflexivity.
  - destruct mixin as [[] |]; discriminate.
Qed.

Lemma generate_value_int (t : pytype) (metadata : gmap string value) :
  int_typed t = true -> generate_value t metadata = int_rule metadata.
Proof.
  intros H. destruct (int_typed_inv t H) as [-> | [name ->]]; reflexivity.
Qed.

(** C1.  For an integer-typed field whose constraint mapping holds integer
    bounds, with [lo] the [ge] bound if present, else [gt + 1] if [gt] is
    present, else 2, and [hi] the [le] bound if present, else [lt - 1] if
    [lt] is present, else 999: whenever [lo <= hi], synthesis returns, on
    every outcome of the random source, an integer [x] with
    [lo <= x <= hi]. *)
Theorem integer_within_bounds (t : pytype) (metadata : gmap string value)
  (tape : list nat) :
  int_typed t = true ->
  int_bounds metadata = true ->
  (spec_lo metadata <= spec_hi metadata)%Z ->
  exists x tape',
    run (generate_value t metadata) tape = (Ok (VInt x), tape')
    /\ (spec_lo metadata <= x <= spec_hi metadata)%Z.
Proof.
  intros Ht Hm Hle.
  rewrite (generate_value_int t metadata Ht), (int_rule_spec metadata Hm).
  destruct (surely_run _ _ tape (random_int_surely _ _ Hle))
    as (v & tape' & Hrun & x & -> & Hx).
  exists x, tape'. split; assumption.
Qed.

(** ** Text *)

Lemma length_string_of_list_ascii (l : list ascii) :
  String.length (string_of_list_ascii l) = List.length l.
Proof. induction l as [| c l IH]; simpl; congruence. Qed.

Lemma pystr_exact_surely (n : nat) :
  surely (fun s => String.length s = n) (pystr (Z.of_nat n) (Z.of_nat n)).
Proof.
  unfold pystr. rewrite Z.leb_refl.
  apply (surely_bind (fun x => x = Z.of_nat n)).
  - eapply surely_mono; [| apply surely_randrange; lia].
    simpl. intros x Hx. lia.
  - intros x ->. unfold random_letters. rewrite Nat2Z.id.
    eapply surely_bind.
    + apply (surely_repeat_gen (fun _ => True)).
      apply surely_choice; [discriminate |].
      apply Forall_forall. intros; exact I.
    + simpl. intros chars [Hlen _].
      rewrite length_string_of_list_ascii. exact Hlen.
Qed.

Lemma str_typed_inv (t : pytype) :
  str_typed t = true ->
  t = TBuiltin Cstr \/ exists name, t = TSubclass Cstr name.
Proof.
  destruct t as [| name | o args | c | c name | mixin members | root | fields];
    try discriminate.
  - destruct c; try discriminate. intros _. left. reflexivity.
  - destruct c; try discriminate. intros _. right. exists name. reflexivity.
  - destruct mixin as [[] |]; discriminate.
Qed.

Lemma generate_value_str (t : pytype) (metadata : gmap string value) :
  str_typed t = true -> generate_value t metadata = str_rule metadata.
Proof.
  intros H. destruct (str_typed_inv t H) as [-> | [name ->]]; reflexivity.
Qed.

(** C4.  For a text-typed field whose constraint mapping has [min_length]
    and [max_length] both equal to [L], synthesis returns, on every outcome
    of the random source, a string of length exactly [L]. *)
Theorem text_exact_length (t : pytype) (metadata : gmap string value)
  (L : nat) (tape : list nat) :
  str_typed t = true ->
  metadata !! "min_length" = Some (VInt (Z.of_nat L)) ->
  metadata !! "max_length" = Some (VInt (Z.of_nat L)) ->
  exists s tape',
    run (generate_value t metadata) tape = (Ok (VStr s), tape')
    /\ String.length s = L.
Proof.
  intros Ht Hmin Hmax. rewrite (generate_value_str t metadata Ht).
  unfold str_rule, dict_get. rewrite Hmin, Hmax. simpl.
  rewrite Z.eqb_refl.
  assert (H : surely (fun v => exists s, v = VStr s /\ String.length s = L)
                (let* s := pystr (Z.of_nat L) (Z.of_nat L) in Ret (VStr s))).
  { eapply surely_bind; [apply pystr_exact_surely |].
    simpl. intros s Hs. exists s. split; [reflexivity | exact Hs]. }
  destruct (surely_run _ _ tape H) as (v & tape' & Hrun & s & -> & Hs).
  exists s, tape'. split; assumption.
Qed.

(** ** Booleans *)

Lemma bool_typed_inv (t : pytype) :
  bool_typed t = true ->
  t = TBuiltin Cbool \/ exists name, t = TSubclass Cbool name.
Proof.
  destruct t as [| name | o args | c | c name | mixin members | root | fields];
    try discriminate.
  - destruct c; try discriminate. intros _. left. reflexivity.
  - destruct c; try discriminate. intros _. right. exists name. reflexivity.
  - destruct mixin as [[] |]; discriminate.
Qed.

Lemma boolean_surely : surely (fun _ => True) boolean.
Proof.
  unfold boolean, randint. eapply surely_bind.
  - apply surely_randrange. lia.
  - intros; exact I.
Qed.

(** C8.  A boolean-typed field passes the test of the integer rule as well
    ([bool] derives from [int]), yet it is synthesized by the boolean rule:
    whatever the constraint mapping and the outcome of the random source,
    the value is a boolean and never an integer. *)
Theorem boolean_before_integer (t : pytype) (metadata : gmap string value)
  (tape : list nat) :
  bool_typed t = true ->
  (isinstance_type t && issubclass t Bint = true)
  /\ generate_value t metadata = (let* b := boolean in Ret (VBool b))
  /\ exists b tape',
       run (generate_value t metadata) tape = (Ok (VBool b), tape')
       /\ forall z, VBool b <> VInt z.
Proof.
  intros Ht.
  assert (Heq : generate_value t metadata = (let* b := boolean in Ret (VBool b)))
    by (destruct (bool_typed_inv t Ht) as [-> | [name ->]]; reflexivity).
  split; [| split].
  - destruct (bool_typed_inv t Ht) as [-> | [name ->]]; reflexivity.
  - exact Heq.
  - rewrite Heq.
    assert (H : surely (fun v => exists b, v = VBool b)
                  (let* b := boolean in Ret (VBool b))).
    { eapply surely_bind; [apply boolean_surely |].
      simpl. intros b _. exists b. reflexivity. }
    destruct (surely_run _ _ tape H) as (v & tape' & Hrun & b & ->).
    exists b, tape'. split; [exact Hrun | discriminate].
Qed.

(** ** Shapes no rule matches *)

(** C9.  When the condition of every rule of the dispatcher is false for a
    declared type, synthesis returns [None] without reading the random
    source and without raising.  Every union that has no [None]
    alternative is such a type, the union of [int] and [str] among them. *)
Theorem unmatched_shape_yields_none (t : pytype) (metadata : gmap string value)
  (tape : list nat) :
  no_rule_matches t = true ->
  generate_value t metadata = Ret VNone
  /\ run (generate_value t metadata) tape = (Ok VNone, tape)
  /\ (forall args, existsb is_NoneType args = false ->
                   no_rule_matches (TAlias OUnion args) = true)
  /\ no_rule_matches (TAlias OUnion [TInt; TStr]) = true.
Proof.
  intros H.
  assert (Heq : generate_value t metadata = Ret VNone).
  { rewrite generate_value_unfold. unfold generate_value_body.
    unfold no_rule_matches, rule_conditions in H. cbn [forallb] in H.
    repeat (apply andb_prop in H; destruct H as [? H]).
    repeat match goal with
           | Hc : negb ?c = true |- _ => apply negb_true_iff in Hc
           end.
    cbv zeta.
    repeat match goal with
           | Hc : ?c = false |- context [if ?c then _ else _] => rewrite Hc
           end.
    reflexivity. }
  split; [exact Heq | split; [| split]].
  - rewrite Heq. reflexivity.
  - intros args Hargs. unfold no_rule_matches, rule_conditions.
    cbn [get_origin get_args origin_is andb]. rewrite Hargs. reflexivity.
  - reflexivity.
Qed.

(** ** Insertion-ordered dicts *)

Lemma dict_set_keys_old (d : list (string * value)) (k : string) (v : value) :
  k ∈ dict_keys d -> dict_keys (dict_set d k v) = dict_keys d.
Proof.
  induction d as [| [k' v'] d IH]; simpl; intros Hin.
  - inversion Hin.
  - destruct (String.eqb_spec k' k) as [-> | Hne]; simpl; [reflexivity |].
    f_equal. apply IH. inversion Hin; subst; [congruence | assumption].
Qed.

Lemma dict_set_new (d : list (string * value)) (k : string) (v : value) :
  k ∉ dict_keys d -> dict_set d k v = d ++ [(k, v)].
Proof.
  induction d as [| [k' v'] d IH]; simpl; intros Hnin.
  - reflexivity.
  - destruct (String.eqb_spec k' k) as [-> | Hne].
    + exfalso. apply Hnin. constructor.
    + f_equal. apply IH. intros Hin. apply Hnin. constructor. exact Hin.
Qed.

Lemma dict_set_NoDup (d : list (string * value)) (k : string) (v : value) :
  NoDup (dict_keys d) -> NoDup (dict_keys (dict_set d k v)).
Proof.
  intros Hd. destruct (decide (k ∈ dict_keys d)) as [Hin | Hnin].
  - rewrite (dict_set_keys_old d k v Hin). exact Hd.
  - rewrite (dict_set_new d k v Hnin). unfold dict_keys.
    rewrite map_app. simpl. apply NoDup_app. split; [exact Hd | split].
    + intros x Hx Hx'. apply list_elem_of_singleton in Hx'. subst x.
      exact (Hnin Hx).
    + apply NoDup_singleton.
Qed.

Lemma dict_set_values (P : value -> Prop) (d : list (string * value))
  (k : string) (v : value) :
  P v -> Forall (fun kv => P kv.2) d -> Forall (fun kv => P kv.2) (dict_set d k v).
Proof.
  intros Hv. induction 1 as [| [k' v'] d Hkv Hd IH]; simpl.
  - constructor; [exact Hv | constructor].
  - destruct (String.eqb k' k); constructor; simpl; assumption.
Qed.

Lemma dict_insert_all_NoDup (items acc : list (string * value)) :
  NoDup (dict_keys acc) ->
  NoDup (dict_keys (foldl (fun d kv => dict_set d kv.1 kv.2) acc items)).
Proof.
  revert acc. induction items as [| [k' v'] items IH]; intros acc Hacc; simpl.
  - exact Hacc.
  - apply IH, dict_set_NoDup, Hacc.
Qed.

Lemma dict_insert_all_values (P : value -> Prop) (items acc : list (string * value)) :
  Forall (fun kv => P kv.2) acc ->
  Forall (fun kv => P kv.2) items ->
  Forall (fun kv => P kv.2) (foldl (fun d kv => dict_set d kv.1 kv.2) acc items).
Proof.
  intros Hacc Hitems. revert acc Hacc.
  induction Hitems as [| [k' v'] items Hkv _ IH]; intros acc Hacc; simpl.
  - exact Hacc.
  - apply IH, dict_set_values; assumption.
Qed.

Lemma dict_insert_all_fresh (items acc : list (string * value)) :
  NoDup (dict_keys acc ++ map fst items) ->
  foldl (fun d kv => dict_set d kv.1 kv.2) acc items = acc ++ items.
Proof.
  revert acc. induction items as [| [k' v'] items IH]; intros acc Hnd; simpl.
  - rewrite app_nil_r. reflexivity.
  - simpl in Hnd. apply NoDup_app in Hnd. destruct Hnd as (Hacc & Hdisj & Hit).
    apply NoDup_cons in Hit. destruct Hit as [Hk' Hit].
    rewrite dict_set_new.
    + rewrite IH.
      * rewrite <- app_assoc. reflexivity.
      * unfold dict_keys. rewrite map_app. simpl. rewrite <- app_assoc. simpl.
        apply NoDup_app. split; [exact Hacc | split].
        -- intros x Hx. apply Hdisj, Hx.
        -- apply NoDup_cons. split; assumption.
    + intros Hin. apply (Hdisj k' Hin). constructor.
Qed.

Lemma dict_of_items_NoDup (items : list (string * value)) :
  NoDup (dict_keys (dict_of_items items)).
Proof. apply dict_insert_all_NoDup. constructor. Qed.

Lemma dict_of_items_fresh (items : list (string * value)) :
  NoDup (map fst items) -> dict_of_items items = items.
Proof. intros H. apply (dict_insert_all_fresh items []). exact H. Qed.

(** ** Comprehensions *)

Lemma map_gen_keys {A : Type} (key : A -> string)
  (f : A -> gen (string * value)) (l : list A) :
  (forall a, always (fun b => b.1 = key a) (f a)) ->
  always (fun items => map fst items = map key l) (map_gen f l).
Proof.
  intros Hf. induction l as [| a l IH]; simpl.
  - reflexivity.
  - apply (always_bind (fun b => b.1 = key a)); [apply Hf |]. intros b Hb.
    eapply always_bind; [exact IH |]. intros bs Hbs.
    simpl. rewrite Hb, Hbs. reflexivity.
Qed.

Lemma map_gen_err {A B : Type} (f : A -> gen B) (l : list A)
  (tape tape' : list nat) (e : exn) :
  run (map_gen f l) tape = (Err e, tape') ->
  exists a tape1, a ∈ l /\ run (f a) tape1 = (Err e, tape').
Proof.
  revert tape. induction l as [| a l IH]; simpl; intros tape H.
  - discriminate H.
  - apply run_bind_err_inv in H. destruct H as [H | (b & tape1 & _ & H)].
    + exists a, tape. split; [constructor | exact H].
    + apply run_bind_err_inv in H. destruct H as [H | (bs & tape2 & _ & H)].
      * destruct (IH _ H) as (a' & tape3 & Hin & Ha').
        exists a', tape3. split; [constructor; exact Hin | exact Ha'].
      * discriminate H.
Qed.

(** ** Nested records *)

(** C6.  Synthesizing a nested schema, whose declared field names are
    distinct, either raises an exception that the synthesis of one of its
    fields raised, or returns a record whose keys are exactly the declared
    field names, in declared order; with no fields it returns the empty
    record. *)
Theorem nested_record_keys
  (fields : list (string * (pytype * list annotation)))
  (metadata : gmap string value) (tape : list nat) :
  NoDup (map fst fields) ->
  match run (generate_value (TModel fields) metadata) tape with
  | (Ok v, _) =>
      exists d, v = VDict d
                /\ dict_keys d = map fst fields
                /\ (forall k, k ∈ dict_keys d <-> k ∈ map fst fields)
  | (Err e, _) =>
      exists name annotation field_metadata tape1,
        (name, (annotation, field_metadata)) ∈ fields
        /\ (run (generate_value annotation (extract_metadata field_metadata))
                tape1).1 = Err e
  end
  /\ generate_value (TModel []) metadata = Ret (VDict []).
Proof.
  intros Hnd. split; [| reflexivity].
  cbn [generate_value].
  set (f := fun field : string * (pytype * list annotation) =>
              let '(field_name, (annotation, field_metadata)) := field in
              let* v := generate_value annotation
                          (extract_metadata field_metadata) in
              Ret (field_name, v)).
  assert (Hkeys : always (fun items => map fst items = map fst fields)
                    (map_gen f fields)).
  { apply map_gen_keys. intros [name [annotation md]]. unfold f.
    apply (always_bind (fun _ => True)); [apply always_true |].
    intros v _. reflexivity. }
  rewrite run_bind.
  destruct (run (map_gen f fields) tape) as [[items | e] tape1] eqn:E.
  - simpl. exists (dict_of_items items).
    pose proof (always_run _ _ _ _ _ Hkeys E) as Hitems. simpl in Hitems.
    assert (Hd : dict_keys (dict_of_items items) = map fst fields).
    { rewrite dict_of_items_fresh by (rewrite Hitems; exact Hnd). exact Hitems. }
    split; [reflexivity | split; [exact Hd |]].
    intros k. rewrite Hd. reflexivity.
  - destruct (map_gen_err _ _ _ _ _ E) as ([name [annotation md]] & tape2 & Hin & Hrun).
    exists name, annotation, md, tape2. split; [exact Hin |].
    unfold f in Hrun. apply run_bind_err_inv in Hrun.
    destruct Hrun as [Hrun | (v & tape3 & _ & Hrun)].
    + rewrite Hrun. reflexivity.
    + discriminate Hrun.
Qed.

(** ** Mappings *)

Lemma dict_rule_run (value_gen : gen value) (tape tape' : list nat) (v : value) :
  run (dict_rule value_gen) tape = (Ok v, tape') ->
  exists v1 v2 tape1,
    run value_gen (tl tape) = (Ok v1, tape1)
    /\ run value_gen (tl tape1) = (Ok v2, tape')
    /\ v = VDict (dict_set [(word_of (hd 0%nat tape), v1)]
                           (word_of (hd 0%nat tape1)) v2).
Proof.
  unfold dict_rule. intros H.
  apply run_bind_inv in H. destruct H as (items & tape3 & H & Hret).
  simpl in Hret. inversion Hret; subst v tape3; clear Hret.
  cbn [repeat_gen] in H.
  apply run_bind_inv in H. destruct H as ([k1 v1] & tape1 & H1 & H).
  apply run_bind_inv in H. destruct H as (rest & tape4 & H & Hret).
  simpl in Hret. inversion Hret; subst items tape4; clear Hret.
  apply run_bind_inv in H. destruct H as ([k2 v2] & tape2 & H2 & Hret).
  simpl in Hret. inversion Hret; subst rest tape2; clear Hret.
  unfold word in H1, H2. simpl in H1, H2.
  apply run_bind_inv in H1. destruct H1 as (v1' & tape5 & H1 & Hret).
  simpl in Hret. inversion Hret; subst; clear Hret.
  apply run_bind_inv in H2. destruct H2 as (v2' & tape6 & H2 & Hret).
  simpl in Hret. inversion Hret; subst; clear Hret.
  exists v1, v2, tape1. split; [exact H1 | split; [exact H2 | reflexivity]].
Qed.

(** C2, as the code has it.  Whenever synthesis of a Mapping-typed field
    returns, the value is a mapping built from two generated text tokens and
    two synthesized values, inserted in order: two entries when the tokens
    differ, and a single entry, holding the second value, when they
    collide. *)
Theorem mapping_one_or_two_entries (args : list pytype)
  (metadata : gmap string value) (tape tape' : list nat) (v : value) :
  run (generate_value (TAlias Odict args) metadata) tape = (Ok v, tape') ->
  let value_type := match args with [_; value_type] => value_type | _ => TAny end in
  exists k1 v1 k2 v2 tape1,
    k1 = word_of (hd 0%nat tape)
    /\ run (generate_value value_type metadata) (tl tape) = (Ok v1, tape1)
    /\ k2 = word_of (hd 0%nat tape1)
    /\ run (generate_value value_type metadata) (tl tape1) = (Ok v2, tape')
    /\ v = VDict (if String.eqb k1 k2 then [(k1, v2)] else [(k1, v1); (k2, v2)]).
Proof.
  intros H value_type.
  assert (Hrule : run (dict_rule (generate_value value_type metadata)) tape
                  = (Ok v, tape')).
  { destruct args as [| a [| b [| c l]]]; try discriminate H; exact H. }
  destruct (dict_rule_run _ _ _ _ Hrule) as (v1 & v2 & tape1 & H1 & H2 & Hv).
  exists (word_of (hd 0%nat tape)), v1, (word_of (hd 0%nat tape1)), v2, tape1.
  repeat split; try assumption.
Qed.

(** ** Optional fields *)

Lemma with_first_non_none_find {A : Type} (k : pytype -> gen A) (args : list pytype) :
  with_first_non_none k args
  = match first_non_none args with
    | Some t => k t
    | None => Raise StopIteration
    end.
Proof.
  induction args as [| t args IH]; simpl.
  - reflexivity.
  - destruct (is_NoneType t); simpl; [exact IH | reflexivity].
Qed.

Lemma with_first_non_none_cons {A : Type} (k : pytype -> gen A)
  (t : pytype) (args : list pytype) :
  with_first_non_none k (t :: args)
  = if is_NoneType t then with_first_non_none k args else k t.
Proof. reflexivity. Qed.

Lemma generate_value_optional (args : list pytype) (t : pytype)
  (metadata : gmap string value) :
  existsb is_NoneType args = true ->
  first_non_none args = Some t ->
  generate_value (TAlias OUnion args) metadata
  = (let* v := generate_value t metadata in choice [VNone; v]).
Proof.
  intros Hnone Hfirst. cbn [generate_value]. rewrite Hnone.
  rewrite with_first_non_none_find, Hfirst. reflexivity.
Qed.


(** ** Constraints travel with the recursion *)

Lemma dict_rule_values (P : value -> Prop) (value_gen : gen value) :
  always P value_gen ->
  always (fun v => exists d, v = VDict d
                             /\ NoDup (dict_keys d)
                             /\ Forall (fun kv => P kv.2) d)
         (dict_rule value_gen).
Proof.
  intros Hg. unfold dict_rule.
  apply (always_bind (Forall (fun kv => P kv.2))).
  - apply always_repeat_gen.
    apply (always_bind (fun _ => True)); [apply always_true |]. intros k _.
    eapply always_bind; [exact Hg |]. intros v Hv. exact Hv.
  - intros items Hitems. simpl. exists (dict_of_items items).
    split; [reflexivity | split; [apply dict_of_items_NoDup |]].
    apply (dict_insert_all_values P); [constructor | exact Hitems].
Qed.

(** C10.  The constraint mapping of a Sequence, Mapping, Fixed Tuple or
    Optional field is the one handed to the synthesis of each element, of
    each mapping value, of each tuple position and of the wrapped value.
    So whatever holds of every value synthesized for the element type under
    that mapping holds of each element; in particular integer bounds
    declared on a sequence-of-integers field bound each of its three
    elements. *)
Theorem constraints_passed_down (metadata : gmap string value) :
  (forall sub_type rest,
      generate_value (TAlias Olist (sub_type :: rest)) metadata
      = (let* l := repeat_gen 3 (generate_value sub_type metadata) in
         Ret (VList l)))
  /\ (forall key_type value_type,
         generate_value (TAlias Odict [key_type; value_type]) metadata
         = dict_rule (generate_value value_type metadata))
  /\ (forall args,
         generate_value (TAlias Otuple args) metadata
         = (let* l := map_gen (fun t => generate_value t metadata) args in
            Ret (VTuple l)))
  /\ (forall args t,
         existsb is_NoneType args = true ->
         first_non_none args = Some t ->
         generate_value (TAlias OUnion args) metadata
         = (let* v := generate_value t metadata in choice [VNone; v]))
  /\ (forall (P : value -> Prop) sub_type rest,
         always P (generate_value sub_type metadata) ->
         always (fun v => exists l, v = VList l /\ Forall P l)
                (generate_value (TAlias Olist (sub_type :: rest)) metadata))
  /\ (forall (P : value -> Prop) key_type value_type,
         always P (generate_value value_type metadata) ->
         always (fun v => exists d, v = VDict d /\ Forall (fun kv => P kv.2) d)
                (generate_value (TAlias Odict [key_type; value_type]) metadata))
  /\ (forall (P : value -> Prop) args,
         Forall (fun t => always P (generate_value t metadata)) args ->
         always (fun v => exists l, v = VTuple l /\ Forall P l)
                (generate_value (TAlias Otuple args) metadata))
  /\ (forall (P : value -> Prop) args t,
         existsb is_NoneType args = true ->
         first_non_none args = Some t ->
         always P (generate_value t metadata) ->
         always (fun v => v = VNone \/ P v)
                (generate_value (TAlias OUnion args) metadata))
  /\ (int_bounds metadata = true ->
      (spec_lo metadata <= spec_hi metadata)%Z ->
      forall tape, exists x1 x2 x3 tape',
        run (generate_value (TAlias Olist [TInt]) metadata) tape
        = (Ok (VList [VInt x1; VInt x2; VInt x3]), tape')
        /\ Forall (fun x => (spec_lo metadata <= x <= spec_hi metadata)%Z)
                  [x1; x2; x3]).
Proof.
  split; [reflexivity | split; [reflexivity | split; [reflexivity |]]].
  split; [intros args t; apply generate_value_optional |].
  split; [| split; [| split; [| split]]].
  - intros P sub_type rest HP. cbn [generate_value].
    apply (always_bind (Forall P)); [apply always_repeat_gen, HP |].
    intros l Hl. exists l. split; [reflexivity | exact Hl].
  - intros P key_type value_type HP. cbn [generate_value].
    eapply always_mono; [| apply (dict_rule_values P), HP].
    intros v (d & -> & _ & Hd). exists d. split; [reflexivity | exact Hd].
  - intros P args HP. cbn [generate_value].
    apply (always_bind (Forall P)); [apply always_map_gen, HP |].
    intros l Hl. exists l. split; [reflexivity | exact Hl].
  - intros P args t Hnone Hfirst HP.
    rewrite (generate_value_optional args t metadata Hnone Hfirst).
    eapply always_bind; [exact HP |]. intros v Hv.
    apply always_choice.
    constructor; [left; reflexivity |].
    constructor; [right; exact Hv | constructor].
  - intros Hm Hle tape.
    change (generate_value (TAlias Olist [TInt]) metadata)
      with (let* l := repeat_gen 3 (int_rule metadata) in Ret (VList l)).
    rewrite (int_rule_spec metadata Hm).
    pose proof (surely_repeat_gen _ 3 _ (random_int_surely _ _ Hle)) as H.
    destruct (surely_run _ _ tape H) as (l & tape' & Hrun & Hlen & Hl).
    destruct l as [| v1 [| v2 [| v3 [| v4 l]]]]; try discriminate Hlen.
    inversion Hl as [| ? ? (x1 & -> & H1) Hl1]; subst.
    inversion Hl1 as [| ? ? (x2 & -> & H2) Hl2]; subst.
    inversion Hl2 as [| ? ? (x3 & -> & H3) _]; subst.
    exists x1, x2, x3, tape'. split.
    + rewrite (run_bind_ok _ _ _ _ _ Hrun). reflexivity.
    + repeat constructor; lia.
Qed.

(** ** Induction through nested lists *)

Lemma value_nested_ind (P : value -> Prop) :
  P VNone ->
  (forall b, P (VBool b)) ->
  (forall z, P (VInt z)) ->
  (forall f, P (VFloat f)) ->
  (forall s, P (VStr s)) ->
  (forall l, Forall P l -> P (VList l)) ->
  (forall l, Forall P l -> P (VTuple l)) ->
  (forall d, Forall (fun kv => P kv.2) d -> P (VDict d)) ->
  forall v, P v.
Proof.
  intros HN HB HI HF HS HL HT HD.
  fix IH 1. intros [| b | z | f | s | l | l | d].
  - exact HN.
  - apply HB.
  - apply HI.
  - apply HF.
  - apply HS.
  - apply HL.
    exact ((fix go (l : list value) : Forall P l :=
              match l with
              | [] => List.Forall_nil P
              | x :: l' => List.Forall_cons P x l' (IH x) (go l')
              end) l).
  - apply HT.
    exact ((fix go (l : list value) : Forall P l :=
              match l with
              | [] => List.Forall_nil P
              | x :: l' => List.Forall_cons P x l' (IH x) (go l')
              end) l).
  - apply HD.
    exact ((fix go (d : list (string * value)) : Forall (fun kv => P kv.2) d :=
              match d with
              | [] => List.Forall_nil _
              | kv :: d' =>
                  List.Forall_cons (fun kv => P kv.2) kv d' (IH kv.2) (go d')
              end) d).
Qed.

Lemma pytype_nested_ind (P : pytype -> Prop) :
  P TAny ->
  (forall name, P (TSpecial name)) ->
  (forall o args, Forall P args -> P (TAlias o args)) ->
  (forall c, P (TBuiltin c)) ->
  (forall c name, P (TSubclass c name)) ->
  (forall mixin members, P (TEnum mixin members)) ->
  P (TRootModel None) ->
  (forall r, P r -> P (TRootModel (Some r))) ->
  (forall fields, Forall (fun field => P field.2.1) fields -> P (TModel fields)) ->
  forall t, P t.
Proof.
  intros HAny HSpecial HAlias HBuiltin HSub HEnum HRootN HRootS HModel.
  fix IH 1. intros [| name | o args | c | c name | mixin members | [r |] | fields].
  - exact HAny.
  - apply HSpecial.
  - apply HAlias.
    exact ((fix go (l : list pytype) : Forall P l :=
              match l with
              | [] => List.Forall_nil P
              | x :: l' => List.Forall_cons P x l' (IH x) (go l')
              end) args).
  - apply HBuiltin.
  - apply HSub.
  - apply HEnum.
  - apply HRootS, IH.
  - exact HRootN.
  - apply HModel.
    exact ((fix go (l : list (string * (pytype * list annotation)))
              : Forall (fun field => P field.2.1) l :=
              match l with
              | [] => List.Forall_nil _
              | x :: l' =>
                  List.Forall_cons (fun field => P field.2.1) x l' (IH x.2.1) (go l')
              end) fields).
Qed.

(** ** Generated values are well-formed *)

Lemma always_bind_any {A B : Type} (P : B -> Prop) (x : gen A) (f : A -> gen B) :
  (forall a, always P (f a)) -> always P (bind x f).
Proof.
  intros Hf. apply (always_bind (fun _ => True)); [apply always_true |].
  intros a _. apply Hf.
Qed.

Lemma forallb_of_Forall {A : Type} (f : A -> bool) (l : list A) :
  Forall (fun a => f a = true) l -> forallb f l = true.
Proof.
  induction 1 as [| a l Ha _ IH]; simpl; [reflexivity |].
  rewrite Ha, IH. reflexivity.
Qed.

Lemma Forall_of_forallb {A : Type} (f : A -> bool) (l : list A) :
  forallb f l = true -> Forall (fun a => f a = true) l.
Proof.
  induction l as [| a l IH]; simpl; intros H; constructor.
  - apply andb_prop in H. apply H.
  - apply IH. apply andb_prop in H. apply H.
Qed.

Lemma scalar_wf (v : value) : is_scalar v = true -> wf_value v = true.
Proof. destruct v; simpl; intros H; try reflexivity; discriminate H. Qed.

Lemma random_int_scalar (min max : value) :
  always (fun v => is_scalar v = true) (random_int min max).
Proof.
  unfold random_int. repeat (apply always_bind_any; intros ?). reflexivity.
Qed.

Lemma int_rule_scalar (metadata : gmap string value) :
  always (fun v => is_scalar v = true) (int_rule metadata).
Proof.
  unfold int_rule. do 2 (apply always_bind_any; intros ?).
  apply random_int_scalar.
Qed.

Lemma float_rule_scalar (metadata : gmap string value) :
  always (fun v => is_scalar v = true) (float_rule metadata).
Proof.
  unfold float_rule. repeat (apply always_bind_any; intros ?). reflexivity.
Qed.

Lemma str_rule_scalar (metadata : gmap string value) :
  always (fun v => is_scalar v = true) (str_rule metadata).
Proof.
  unfold str_rule. do 2 (apply always_bind_any; intros ?).
  destruct (_ =? _)%Z; apply always_bind_any; intros ?; reflexivity.
Qed.

Lemma any_rule_scalar : always (fun v => is_scalar v = true) any_rule.
Proof.
  unfold any_rule. apply always_bind_any. intros w.
  apply (always_bind (fun v => is_scalar v = true)); [apply random_int_scalar |].
  intros i Hi. do 2 (apply always_bind_any; intros ?).
  apply always_choice. repeat constructor. exact Hi.
Qed.

Lemma word_list_rule_wf : always (fun v => wf_value v = true) word_list_rule.
Proof.
  unfold word_list_rule. apply always_bind_any. intros l. simpl.
  induction l as [| w l IH]; simpl; [reflexivity | exact IH].
Qed.

Lemma builtin_rule_wf (c : builtin) (exact : bool) (metadata : gmap string value) :
  always (fun v => wf_value v = true) (builtin_rule c exact metadata).
Proof.
  destruct c; cbn [builtin_rule].
  - apply always_bind_any. intros b. reflexivity.
  - eapply always_mono; [apply scalar_wf | apply int_rule_scalar].
  - eapply always_mono; [apply scalar_wf | apply float_rule_scalar].
  - eapply always_mono; [apply scalar_wf | apply str_rule_scalar].
  - destruct exact; [apply word_list_rule_wf | reflexivity].
  - reflexivity.
  - reflexivity.
Qed.

Lemma dict_of_items_wf (items : list (string * value)) :
  Forall (fun kv => wf_value kv.2 = true) items ->
  wf_value (VDict (dict_of_items items)) = true.
Proof.
  intros Hitems. simpl. apply andb_true_intro. split.
  - apply bool_decide_eq_true. apply dict_of_items_NoDup.
  - apply forallb_of_Forall.
    apply (dict_insert_all_values (fun v => wf_value v = true)).
    + constructor.
    + exact Hitems.
Qed.

Lemma dict_rule_wf (value_gen : gen value) :
  always (fun v => wf_value v = true) value_gen ->
  always (fun v => wf_value v = true) (dict_rule value_gen).
Proof.
  intros Hg. eapply always_mono; [| apply dict_rule_values, Hg].
  intros v (d & -> & Hnd & Hd). simpl. apply andb_true_intro. split.
  - apply bool_decide_eq_true, Hnd.
  - apply forallb_of_Forall, Hd.
Qed.

Lemma generate_value_wf (t : pytype) :
  forall metadata : gmap string value,
    wf_pytype t = true ->
    always (fun v => wf_value v = true) (generate_value t metadata).
Proof.
  induction t as [| name | o args IH | c | c name | mixin members | | r IH | fields IH]
    using pytype_nested_ind; intros metadata Hwf.
  - eapply always_mono; [apply scalar_wf | apply any_rule_scalar].
  - reflexivity.
  - simpl in Hwf. apply Forall_of_forallb in Hwf.
    destruct o.
    + cbn [generate_value]. destruct (existsb is_NoneType args); [| reflexivity].
      induction IH as [| x l Hx _ IHl]; [exact I |].
      inversion Hwf as [| ? ? Hwx Hwl]; subst.
      rewrite with_first_non_none_cons.
      destruct (is_NoneType x); [apply IHl, Hwl |].
      eapply always_bind; [apply Hx, Hwx |]. intros v Hv.
      apply always_choice. repeat constructor. exact Hv.
    + cbn [generate_value].
      apply (always_bind (Forall (fun v => wf_value v = true))).
      * apply always_repeat_gen. destruct IH as [| x l Hx _].
        -- eapply always_mono; [apply scalar_wf | apply any_rule_scalar].
        -- apply Hx. inversion Hwf; assumption.
      * intros l Hl. simpl. apply forallb_of_Forall, Hl.
    + cbn [generate_value].
      destruct IH as [| a l1 Ha [| b l2 Hb [| c l3 Hc _]]].
      * apply dict_rule_wf.
        eapply always_mono; [apply scalar_wf | apply any_rule_scalar].
      * exact I.
      * apply dict_rule_wf, Hb.
        inversion Hwf as [| ? ? _ Hwl]; subst. inversion Hwl; assumption.
      * exact I.
    + cbn [generate_value].
      apply (always_bind (Forall (fun v => wf_value v = true))).
      * apply always_map_gen.
        induction IH as [| x l Hx _ IHl]; constructor.
        -- apply Hx. inversion Hwf; assumption.
        -- apply IHl. inversion Hwf; assumption.
      * intros l Hl. simpl. apply forallb_of_Forall, Hl.
    + reflexivity.
  - apply builtin_rule_wf.
  - apply builtin_rule_wf.
  - simpl in Hwf. apply always_choice. apply Forall_of_forallb, Hwf.
  - eapply always_mono; [apply scalar_wf | apply any_rule_scalar].
  - apply IH. exact Hwf.
  - simpl in Hwf. apply Forall_of_forallb in Hwf. cbn [generate_value].
    apply (always_bind (Forall (fun kv => wf_value kv.2 = true))).
    + apply always_map_gen.
      induction IH as [| [name [annotation md]] l Hx _ IHl]; constructor.
      * eapply always_bind; [apply Hx; inversion Hwf; assumption |].
        intros v Hv. exact Hv.
      * apply IHl. inversion Hwf; assumption.
    + intros items Hitems. apply dict_of_items_wf, Hitems.
Qed.

Lemma generate_dummy_instance_wf (model : pytype) :
  wf_pytype model = true ->
  always (fun v => wf_value v = true) (generate_dummy_instance model).
Proof.
  intros Hwf. unfold generate_dummy_instance, generate_dummy_instance_body.
  destruct model as [| name | o args | c | c name | mixin members | [r |] | fields];
    try exact I.
  - destruct c; exact I.
  - destruct c; exact I.
  - destruct mixin as [[] |]; exact I.
  - apply generate_value_wf. exact Hwf.
  - eapply always_mono; [apply scalar_wf | apply any_rule_scalar].
  - apply (generate_value_wf (TModel fields) ∅ Hwf).
Qed.

(** ** Writing a value out and reading it back *)

Lemma of_to_json (v : value) :
  wf_value v = true -> of_json (to_json v) = listify v.
Proof.
  induction v as [| b | z | f | s | l IH | l IH | d IH] using value_nested_ind;
    simpl; intros Hwf; try reflexivity.
  - f_equal. induction IH as [| x l Hx _ IHl]; simpl in *; [reflexivity |].
    apply andb_prop in Hwf. destruct Hwf as [Hwx Hwl].
    rewrite (Hx Hwx), (IHl Hwl). reflexivity.
  - f_equal. induction IH as [| x l Hx _ IHl]; simpl in *; [reflexivity |].
    apply andb_prop in Hwf. destruct Hwf as [Hwx Hwl].
    rewrite (Hx Hwx), (IHl Hwl). reflexivity.
  - apply andb_prop in Hwf. destruct Hwf as [Hnd Hwd].
    apply bool_decide_eq_true in Hnd. f_equal.
    assert (Hmap : map (fun kv : string * json => (kv.1, of_json kv.2))
                     (map (fun kv : string * value => (kv.1, to_json kv.2)) d)
                   = map (fun kv : string * value => (kv.1, listify kv.2)) d).
    { clear Hnd. induction IH as [| [k x] d Hx _ IHd]; simpl in *; [reflexivity |].
      apply andb_prop in Hwd. destruct Hwd as [Hwx Hwd].
      rewrite (Hx Hwx), (IHd Hwd). reflexivity. }
    rewrite Hmap. apply dict_of_items_fresh.
    rewrite map_map. simpl. exact Hnd.
Qed.

Lemma roundtrip_listify (v : value) :
  wf_value v = true -> loads (dumps v) = Ok (listify v).
Proof.
  intros Hwf. unfold loads, dumps. rewrite decode_encode.
  rewrite (of_to_json v Hwf). reflexivity.
Qed.

Lemma struct_same_listify (v : value) : struct_same v (listify v).
Proof.
  induction v as [| b | z | f | s | l IH | l IH | d IH] using value_nested_ind;
    simpl; try (apply same_scalar; reflexivity).
  - apply same_list. induction IH; simpl; constructor; assumption.
  - apply same_tuple. induction IH; simpl; constructor; assumption.
  - apply same_dict.
    + unfold dict_keys. rewrite map_map. reflexivity.
    + rewrite map_map. simpl.
      induction IH as [| [k x] d Hx _ IHd]; simpl; constructor; assumption.
Qed.

Lemma listify_without_tuple (v : value) : has_tuple v = false -> listify v = v.
Proof.
  induction v as [| b | z | f | s | l IH | l IH | d IH] using value_nested_ind;
    simpl; intros Hno; try reflexivity.
  - f_equal. induction IH as [| x l Hx _ IHl]; simpl in *; [reflexivity |].
    apply orb_false_elim in Hno. destruct Hno as [Hnx Hnl].
    rewrite (Hx Hnx), (IHl Hnl). reflexivity.
  - discriminate Hno.
  - f_equal. induction IH as [| [k x] d Hx _ IHd]; simpl in *; [reflexivity |].
    apply orb_false_elim in Hno. destruct Hno as [Hnx Hnd].
    rewrite (Hx Hnx), (IHd Hnd). reflexivity.
Qed.

(** C3.  Every value that synthesis produces, for a field or for a whole
    model (the stored values of its enumerations being well-formed Python
    values), is written as a JSON text that reads back as the same tree with
    each tuple turned into the list of its elements: scalars are equal,
    tuples and sequences keep their elements in order, records and mappings
    keep their keys, in order, each with the value read back for it.  A
    value holding no tuple reads back equal to itself. *)
Theorem roundtrip_structurally_identical :
  (forall (t : pytype) (metadata : gmap string value)
          (tape tape' : list nat) (v : value),
      wf_pytype t = true ->
      run (generate_value t metadata) tape = (Ok v, tape') ->
      exists v', loads (dumps v) = Ok v'
                 /\ v' = listify v
                 /\ struct_same v v'
                 /\ (has_tuple v = false -> v' = v))
  /\ (forall (model : pytype) (tape tape' : list nat) (text : json_text),
         wf_pytype model = true ->
         run (generate_dummy_data model) tape = (Ok text, tape') ->
         exists v v',
           run (generate_dummy_instance model) tape = (Ok v, tape')
           /\ text = dumps v
           /\ loads text = Ok v'
           /\ v' = listify v
           /\ struct_same v v').
Proof.
  split.
  - intros t metadata tape tape' v Hwf Hrun.
    pose proof (always_run _ _ _ _ _ (generate_value_wf t metadata Hwf) Hrun) as Hv.
    simpl in Hv. exists (listify v).
    split; [apply roundtrip_listify, Hv | split; [reflexivity | split]].
    + apply struct_same_listify.
    + apply listify_without_tuple.
  - intros model tape tape' text Hwf Hrun. unfold generate_dummy_data in Hrun.
    apply run_bind_inv in Hrun. destruct Hrun as (v & tape1 & Hrun & Hret).
    simpl in Hret. inversion Hret; subst text tape1; clear Hret.
    pose proof (always_run _ _ _ _ _ (generate_dummy_instance_wf model Hwf) Hrun) as Hv.
    simpl in Hv. exists v, (listify v).
    split; [exact Hrun | split; [reflexivity | split; [| split]]].
    + apply roundtrip_listify, Hv.
    + reflexivity.
    + apply struct_same_listify.
Qed.

End Properties.

(** * The properties at work on the test-suite models *)

(** The extractor on [conint(gt=1000, lt=9999)]: the unset bounds and the
    annotation objects of other kinds leave no trace. *)
Example extract_metadata_conint :
  map_to_list (extract_metadata (conint (VInt 1000) VNone (VInt 9999) VNone))
  = [("gt", VInt 1000); ("lt", VInt 9999)].
Proof. vm_compute. reflexivity. Qed.

(** The bounds the test suite expects for [conint(gt=1000, lt=9999)]. *)
Example zip_code_bounds :
  spec_lo (extract_metadata (conint (VInt 1000) VNone (VInt 9999) VNone)) = 1001%Z
  /\ spec_hi (extract_metadata (conint (VInt 1000) VNone (VInt 9999) VNone)) = 9998%Z.
Proof. vm_compute. split; reflexivity. Qed.

Example empty_model_is_empty_record :
  run (generate_dummy_data (syntax := demo_syntax) EmptyModel) []
  = (Ok (JObject []), []).
Proof. reflexivity. Qed.

Example union_model_is_null :
  run (generate_dummy_data (syntax := demo_syntax) UnionModel) []
  = (Ok (JObject [("mixed_field", JNull)]), []).
Proof. reflexivity. Qed.

(** One synthesis of [User]: the tuple of coordinates is written as an
    array. *)
Example user_sample :
  (run (generate_dummy_data (syntax := demo_syntax) User)
       (map (fun i => (7 * i + 3)%nat) (seq 0 25))).1
  = Ok (JObject
          [ ("id", JInt 103); ("name", JString "Lorem ipsum dol");
            ("age", JNull); ("active", JBool true);
            ("tags", JArray [ JString "Lorem ipsum dol";
                              JString "Lorem ipsum dol";
                              JString "Lorem ipsum dol" ]);
            ("metadata", JObject [ ("delta", @JFloat demo_fake 80%Z);
                                   ("bravo", JString "alpha") ]);
            ("address", JObject [ ("city", JString "Lorem ipsum dol");
                                  ("zip_code", JInt 1151) ]);
            ("coordinates", JArray [@JFloat demo_fake 267%Z; @JFloat demo_fake 274%Z]);
            ("role", JString "admin") ]).
Proof. vm_compute. reflexivity. Qed.

(** A tuple never reads back as a tuple. *)
Lemma tuple_reads_back_as_list (fake : FakeSource) (syntax : JsonSyntax)
  (l : list value) :
  loads (dumps (VTuple l)) <> Ok (VTuple l).
Proof.
  unfold loads, dumps. rewrite decode_encode. simpl. discriminate.
Qed.

(** A text field bounded to fewer than five characters, with distinct
    bounds, cannot be synthesized: Faker's [text] refuses the request. *)
Example short_text_raises :
  generate_value TStr length_1_3 = Raise ValueError.
Proof. vm_compute. reflexivity. Qed.

Lemma integer_within_bounds_witness :
  exists x tape',
    run (generate_value TInt bounds_100_999) [1234%nat] = (Ok (VInt x), tape')
    /\ (spec_lo bounds_100_999 <= x <= spec_hi bounds_100_999)%Z.
Proof.
  apply (integer_within_bounds TInt bounds_100_999 [1234%nat]).
  - reflexivity.
  - vm_compute. reflexivity.
  - vm_compute. discriminate.
Defined.

(** C2, as stated, fails: when the two generated keys collide the mapping
    holds one entry, not two. *)
Lemma mapping_collision_single_entry :
  exists d,
    (run (generate_value (TAlias Odict [TStr; TBool]) (∅ : gmap string (@value demo_fake)))
         [0; 0; 0; 0]%nat).1 = Ok (VDict d)
    /\ List.length d = 1%nat.
Proof.
  exists [("alpha", VBool true)]. split; [vm_compute; reflexivity | reflexivity].
Qed.

Lemma mapping_one_or_two_entries_witness :
  exists k1 v1 k2 v2,
    (run (generate_value (TAlias Odict [TStr; TBool]) (∅ : gmap string (@value demo_fake)))
         [0; 70; 1; 0]%nat).1
    = Ok (VDict (if String.eqb k1 k2 then [(k1, v2)] else [(k1, v1); (k2, v2)])).
Proof.
  assert (Hrun : run (generate_value (TAlias Odict [TStr; TBool])
                        (∅ : gmap string (@value demo_fake))) [0; 70; 1; 0]%nat
                 = (Ok (VDict [("alpha", VBool false); ("bravo", VBool true)]), []))
    by (vm_compute; reflexivity).
  destruct (mapping_one_or_two_entries _ _ _ _ _ Hrun)
    as (k1 & v1 & k2 & v2 & tape1 & _ & _ & _ & _ & Hv).
  exists k1, v1, k2, v2. rewrite Hrun. simpl. f_equal. exact Hv.
Defined.

Lemma roundtrip_structurally_identical_witness :
  exists v v',
    (run (generate_value (TAlias Otuple [TInt; TStr]) (∅ : gmap string (@value demo_fake)))
         [7; 8]%nat).1 = Ok v
    /\ loads (syntax := demo_syntax) (dumps v) = Ok v'
    /\ struct_same v v'.
Proof.
  assert (Hrun : run (generate_value (TAlias Otuple [TInt; TStr])
                        (∅ : gmap string (@value demo_fake))) [7; 8]%nat
                 = (Ok (VTuple [VInt 9; VStr "Lorem ipsum dol"]), []))
    by (vm_compute; reflexivity).
  destruct (proj1 (roundtrip_structurally_identical (syntax := demo_syntax))
              (TAlias Otuple [TInt; TStr]) ∅ _ _ _ eq_refl Hrun)
    as (v' & H1 & _ & H2 & _).
  exists (VTuple [VInt 9; VStr "Lorem ipsum dol"]), v'.
  rewrite Hrun. split; [reflexivity | split; assumption].
Defined.

Lemma text_exact_length_witness :
  exists s tape',
    run (generate_value TStr length_10_10) (seq 0 20) = (Ok (VStr s), tape')
    /\ String.length s = 10%nat.
Proof.
  apply (text_exact_length TStr length_10_10 10 (seq 0 20)).
  - reflexivity.
  - vm_compute. reflexivity.
  - vm_compute. reflexivity.
Defined.

Lemma nested_record_keys_witness :
  exists d tape',
    run (generate_value Address (∅ : gmap string (@value demo_fake))) [3; 10; 17]%nat
    = (Ok (VDict d), tape')
    /\ dict_keys d = ["city"; "zip_code"].
Proof.
  assert (Hnd : NoDup (map fst Address_fields)).
  { apply NoDup_cons. split; [| apply NoDup_singleton].
    intros H. apply list_elem_of_singleton in H. discriminate H. }
  pose proof (proj1 (nested_record_keys Address_fields ∅ [3; 10; 17]%nat Hnd)) as H.
  destruct H as (d & Hd & Hkeys & _).
  exists d, [17%nat]. split; [rewrite <- Hd; vm_compute; reflexivity | exact Hkeys].
Defined.



Lemma boolean_before_integer_witness :
  exists b tape',
    run (generate_value TBool bounds_100_999) [42%nat] = (Ok (VBool b), tape').
Proof.
  destruct (boolean_before_integer TBool bounds_100_999 [42%nat] eq_refl)
    as (_ & _ & b & tape' & H & _).
  exists b, tape'. exact H.
Defined.

Lemma unmatched_shape_yields_none_witness :
  run (generate_value (TAlias OUnion [TInt; TStr]) bounds_100_999) [1; 2; 3]%nat
  = (Ok VNone, [1; 2; 3]%nat).
Proof.
  exact (proj1 (proj2 (unmatched_shape_yields_none
                         (TAlias OUnion [TInt; TStr]) bounds_100_999
                         [1; 2; 3]%nat eq_refl))).
Defined.

Lemma constraints_passed_down_witness :
  exists x1 x2 x3 tape',
    run (generate_value (TAlias Olist [TInt]) bounds_100_999) [7; 8; 900]%nat
    = (Ok (VList [VInt x1; VInt x2; VInt x3]), tape')
    /\ Forall (fun x => (100 <= x <= 999)%Z) [x1; x2; x3].
Proof.
  assert (Hm : int_bounds bounds_100_999 = true) by (vm_compute; reflexivity).
  assert (Hle : (spec_lo bounds_100_999 <= spec_hi bounds_100_999)%Z)
    by (vm_compute; discriminate).
  exact (proj2 (proj2 (proj2 (proj2 (proj2 (proj2 (proj2 (proj2
            (constraints_passed_down bounds_100_999))))))))
           Hm Hle [7; 8; 900]%nat).
Defined.

(** * Further properties of the module *)

(** ** Runs in sequence *)

Lemma map_gen_successive {A B : Type} (f : A -> gen B) (l : list A)
  (tape tape' : list nat) (bs : list B) :
  run (map_gen f l) tape = (Ok bs, tape') <-> successive (map f l) tape bs tape'.
Proof.
  revert tape bs. induction l as [| a l IH]; intros tape bs; simpl.
  - destruct bs as [| b bs]; split; intros H.
    + inversion H. reflexivity.
    + subst. reflexivity.
    + discriminate H.
    + destruct H.
  - split.
    + intros H. apply run_bind_inv in H. destruct H as (b & tape1 & Hb & H).
      apply run_bind_inv in H. destruct H as (bs' & tape2 & Hbs & H).
      simpl in H. inversion H; subst. exists tape1. split; [exact Hb |].
      apply IH. exact Hbs.
    + destruct bs as [| b bs']; [intros [] |]. intros (tape1 & Hb & H).
      apply IH in H. rewrite (run_bind_ok _ _ _ _ _ Hb).
      change (run (let* bs := map_gen f l in Ret (b :: bs)) tape1
              = (Ok (b :: bs'), tape')).
      rewrite (run_bind_ok _ _ _ _ _ H). reflexivity.
Qed.

Lemma repeat_gen_successive {A : Type} (n : nat) (x : gen A)
  (tape tape' : list nat) (l : list A) :
  run (repeat_gen n x) tape = (Ok l, tape') <-> successive (repeat x n) tape l tape'.
Proof.
  revert tape l. induction n as [| n IH]; intros tape l; simpl.
  - destruct l as [| b l]; split; intros H.
    + inversion H. reflexivity.
    + subst. reflexivity.
    + discriminate H.
    + destruct H.
  - split.
    + intros H. apply run_bind_inv in H. destruct H as (b & tape1 & Hb & H).
      apply run_bind_inv in H. destruct H as (bs' & tape2 & Hbs & H).
      simpl in H. inversion H; subst. exists tape1. split; [exact Hb |].
      apply IH. exact Hbs.
    + destruct l as [| b bs']; [intros [] |]. intros (tape1 & Hb & H).
      apply IH in H. rewrite (run_bind_ok _ _ _ _ _ Hb).
      rewrite (run_bind_ok _ _ _ _ _ H). reflexivity.
Qed.

Lemma successive_length {A : Type} (xs : list (gen A)) (tape tape' : list nat)
  (l : list A) :
  successive xs tape l tape' -> List.length l = List.length xs.
Proof.
  revert tape l. induction xs as [| x xs IH]; intros tape [| a l]; simpl;
    try tauto.
  intros (tape1 & _ & H). f_equal. exact (IH _ _ H).
Qed.

(** ** Reading a fixed number of cells *)

Lemma reads_bind {A B : Type} (n m : nat) (Q : A -> Prop) (P : B -> Prop)
  (x : gen A) (f : A -> gen B) :
  reads n Q x -> (forall a, Q a -> reads m P (f a)) -> reads (n + m) P (bind x f).
Proof.
  revert x. induction n as [| n IH]; intros [a | e | k]; simpl; try tauto.
  - intros Ha Hf. apply Hf, Ha.
  - intros Hk Hf d. apply IH; [apply Hk | exact Hf].
Qed.

Lemma reads_run {A : Type} (n : nat) (P : A -> Prop) (x : gen A) (tape : list nat) :
  reads n P x -> exists a, run x tape = (Ok a, skipn n tape) /\ P a.
Proof.
  revert x tape. induction n as [| n IH]; intros [a | e | k] tape; simpl; try tauto.
  - intros Ha. exists a. split; [reflexivity | exact Ha].
  - intros Hk. destruct (IH _ (tl tape) (Hk (hd 0%nat tape))) as (a & Hrun & Ha).
    exists a. split; [| exact Ha]. rewrite Hrun. f_equal.
    destruct tape; [destruct n |]; reflexivity.
Qed.

Lemma reads_mono {A : Type} (n : nat) (P Q : A -> Prop) (x : gen A) :
  (forall a, P a -> Q a) -> reads n P x -> reads n Q x.
Proof.
  intros HPQ. revert x. induction n as [| n IH]; intros [a | e | k]; simpl; try tauto.
  - apply HPQ.
  - intros Hk d. apply IH, Hk.
Qed.

Lemma reads_draw : reads 1 (fun _ => True) draw.
Proof. simpl. auto. Qed.

Lemma reads_randrange (a b : Z) :
  (a < b)%Z -> reads 1 (fun x => (a <= x < b)%Z) (randrange a b).
Proof.
  intros Hab. unfold randrange.
  destruct (Z.ltb_spec a b) as [_ | Hge]; [| lia].
  simpl. intros d.
  pose proof (Z.mod_pos_bound (Z.of_nat d) (b - a)). lia.
Qed.

(** ** Outcomes *)

Lemma always_can_return {A : Type} (x : gen A) : always (can_return x) x.
Proof.
  induction x as [a | e | k IH]; simpl.
  - exists []. reflexivity.
  - exact I.
  - intros d. eapply always_mono; [| apply IH].
    intros a [tape H]. exists (d :: tape). exact H.
Qed.

Section Coverage.

Context {fake : FakeSource} {syntax : JsonSyntax}.

(** ** Sequences, tuples and records, element by element *)

(** X1.  A Sequence field is synthesized by three successive syntheses of
    its element type (of [Any] when the alias is bare), under the field's
    own constraints, each starting where the previous one stopped reading:
    it returns exactly when all three return, with the list of their three
    results in order. *)
Theorem sequence_three_elements (args : list pytype)
  (metadata : gmap string value) (tape tape' : list nat) (v : value) :
  let sub_type := match args with a :: _ => a | [] => TAny end in
  run (generate_value (TAlias Olist args) metadata) tape = (Ok v, tape')
  <-> exists x1 x2 x3 tape1 tape2,
        v = VList [x1; x2; x3]
        /\ run (generate_value sub_type metadata) tape = (Ok x1, tape1)
        /\ run (generate_value sub_type metadata) tape1 = (Ok x2, tape2)
        /\ run (generate_value sub_type metadata) tape2 = (Ok x3, tape').
Proof.
  intros sub_type.
  assert (Heq : generate_value (TAlias Olist args) metadata
                = (let* l := repeat_gen 3 (generate_value sub_type metadata) in
                   Ret (VList l)))
    by (destruct args; reflexivity).
  rewrite Heq. clear Heq. split.
  - intros H. apply run_bind_inv in H. destruct H as (l & tape3 & Hl & Hret).
    simpl in Hret. inversion Hret; subst v tape3; clear Hret.
    apply repeat_gen_successive in Hl.
    destruct l as [| x1 [| x2 [| x3 [| x4 l]]]]; simpl in Hl; try tauto.
    + destruct Hl as (? & _ & []).
    + destruct Hl as (? & _ & ? & _ & []).
    + destruct Hl as (tape1 & H1 & tape2 & H2 & tape3 & H3 & ->).
      exists x1, x2, x3, tape1, tape2. repeat split; assumption.
    + destruct Hl as (? & _ & ? & _ & ? & _ & []).
  - intros (x1 & x2 & x3 & tape1 & tape2 & -> & H1 & H2 & H3).
    assert (Hl : run (repeat_gen 3 (generate_value sub_type metadata)) tape
                 = (Ok [x1; x2; x3], tape')).
    { apply repeat_gen_successive. simpl.
      exists tape1. split; [exact H1 |]. exists tape2. split; [exact H2 |].
      exists tape'. split; [exact H3 | reflexivity]. }
    rewrite (run_bind_ok _ _ _ _ _ Hl). reflexivity.
Qed.

(** X2.  A Fixed Tuple field returns exactly when the syntheses of its
    positions, run one after the other under the field's constraints, all
    return; the value is then the tuple of their results, one per declared
    position, in order. *)
Theorem tuple_positional (args : list pytype) (metadata : gmap string value)
  (tape tape' : list nat) (v : value) :
  run (generate_value (TAlias Otuple args) metadata) tape = (Ok v, tape')
  <-> exists l,
        v = VTuple l
        /\ List.length l = List.length args
        /\ successive (map (fun t => generate_value t metadata) args)
                      tape l tape'.
Proof.
  cbn [generate_value]. split.
  - intros H. apply run_bind_inv in H. destruct H as (l & tape1 & Hl & Hret).
    simpl in Hret. inversion Hret; subst v tape1; clear Hret.
    apply map_gen_successive in Hl. exists l.
    split; [reflexivity | split; [| exact Hl]].
    rewrite (successive_length _ _ _ _ Hl). apply length_map.
  - intros (l & -> & _ & Hl). apply map_gen_successive in Hl.
    rewrite (run_bind_ok _ _ _ _ _ Hl). reflexivity.
Qed.

Lemma successive_named {A : Type} (name : A -> string) (g : A -> gen value)
  (l : list A) (tape tape' : list nat) (items : list (string * value)) :
  successive (map (fun a => let* v := g a in Ret (name a, v)) l) tape items tape'
  <-> exists vals,
        items = combine (map name l) vals
        /\ successive (map g l) tape vals tape'.
Proof.
  revert tape items. induction l as [| a l IH]; intros tape items; simpl.
  - split.
    + destruct items; [intros -> | intros []]. exists []. split; reflexivity.
    + intros ([| v vals] & -> & H); simpl in *; [exact H | destruct H].
  - split.
    + destruct items as [| [k v] items]; [intros [] |].
      intros (tape1 & Ha & H). apply run_bind_inv in Ha.
      destruct Ha as (v' & tape2 & Hg & Hret). simpl in Hret.
      inversion Hret; subst; clear Hret. apply IH in H.
      destruct H as (vals & -> & Hvals). exists (v :: vals).
      split; [reflexivity |]. exists tape1. split; assumption.
    + intros ([| v vals] & -> & H); [destruct H |].
      destruct H as (tape1 & Hg & H). simpl. exists tape1. split.
      * rewrite (run_bind_ok _ _ _ _ _ Hg). reflexivity.
      * apply IH. exists vals. split; [reflexivity | exact H].
Qed.

Lemma combine_keys {A B : Type} (ks : list A) (vs : list B) :
  List.length vs = List.length ks -> map fst (combine ks vs) = ks.
Proof.
  revert vs. induction ks as [| k ks IH]; intros [| v vs]; simpl; intros H;
    try reflexivity; try discriminate H.
  f_equal. apply IH. congruence.
Qed.

(** X3.  A nested schema with distinct field names returns exactly when the
    syntheses of its fields, each under the constraints extracted from its
    own annotations and run in declared order, all return; the record then
    pairs every declared name with the value synthesized for that field.
    The constraint mapping handed to the nested schema itself plays no
    part. *)
Theorem record_field_values
  (fields : list (string * (pytype * list annotation)))
  (metadata : gmap string value) (tape tape' : list nat) (v : value) :
  NoDup (map fst fields) ->
  run (generate_value (TModel fields) metadata) tape = (Ok v, tape')
  <-> exists vals,
        v = VDict (combine (map fst fields) vals)
        /\ successive
             (map (fun field => generate_value field.2.1
                                  (extract_metadata field.2.2)) fields)
             tape vals tape'.
Proof.
  intros Hnd. cbn [generate_value].
  set (f := fun field : string * (pytype * list annotation) =>
              let '(field_name, (annotation, field_metadata)) := field in
              let* v := generate_value annotation
                          (extract_metadata field_metadata) in
              Ret (field_name, v)).
  assert (Hf : map f fields
               = map (fun field => let* v := generate_value field.2.1
                                             (extract_metadata field.2.2) in
                                   Ret (field.1, v)) fields).
  { apply map_ext. intros [name [annotation md]]. reflexivity. }
  split.
  - intros H. apply run_bind_inv in H. destruct H as (items & tape1 & Hitems & Hret).
    simpl in Hret. inversion Hret; subst v tape1; clear Hret.
    apply map_gen_successive in Hitems. rewrite Hf in Hitems.
    apply (successive_named fst) in Hitems.
    destruct Hitems as (vals & -> & Hvals). exists vals. split; [| exact Hvals].
    f_equal. apply dict_of_items_fresh. rewrite combine_keys; [exact Hnd |].
    rewrite (successive_length _ _ _ _ Hvals), !length_map. reflexivity.
  - intros (vals & -> & Hvals).
    assert (Hitems : run (map_gen f fields) tape
                     = (Ok (combine (map fst fields) vals), tape')).
    { apply map_gen_successive. rewrite Hf. apply (successive_named fst).
      exists vals. split; [reflexivity | exact Hvals]. }
    rewrite run_bind, Hitems. simpl. do 3 f_equal.
    apply dict_of_items_fresh. rewrite combine_keys; [exact Hnd |].
    rewrite (successive_length _ _ _ _ Hvals), !length_map. reflexivity.
Qed.

(** ** Enumerations *)

Lemma choice_run {A : Type} (a : A) (l : list A) (tape : list nat) :
  run (choice (a :: l)) tape
  = (Ok (nth (hd 0%nat tape mod List.length (a :: l)) (a :: l) a), tl tape).
Proof. reflexivity. Qed.

(** X4.  An enumeration field is synthesized by the enumeration rule
    whatever its data-type mixin and the constraint mapping: one cell of the
    tape is read and the stored value of one member is returned, every
    member being reachable; an enumeration without members raises
    [IndexError]. *)
Theorem enumeration_member (mixin : option builtin) (members : list value)
  (metadata : gmap string value) :
  (members = [] ->
   generate_value (TEnum mixin members) metadata = Raise IndexError)
  /\ (members <> [] ->
      forall tape, exists v,
        run (generate_value (TEnum mixin members) metadata) tape
        = (Ok v, tl tape))
  /\ (forall tape tape' v,
         run (generate_value (TEnum mixin members) metadata) tape = (Ok v, tape') ->
         In v members /\ tape' = tl tape)
  /\ (forall v, In v members ->
                can_return (generate_value (TEnum mixin members) metadata) v).
Proof.
  cbn [generate_value]. split; [intros ->; reflexivity |].
  destruct members as [| a l].
  - split; [congruence | split].
    + intros tape tape' v H. discriminate H.
    + intros v [].
  - split; [| split].
    + intros _ tape. eexists. apply choice_run.
    + intros tape tape' v H. rewrite choice_run in H.
      assert (Hv : nth (hd 0%nat tape mod List.length (a :: l)) (a :: l) a = v)
        by congruence.
      split; [| congruence].
      rewrite <- Hv. apply nth_In. apply Nat.mod_upper_bound. discriminate.
    + intros v Hin. destruct (In_nth _ _ a Hin) as (i & Hi & Hnth).
      exists [i]. rewrite choice_run.
      change (hd 0%nat [i]) with i. rewrite (Nat.mod_small _ _ Hi).
      rewrite Hnth. reflexivity.
Qed.

(** ** Dynamic fields *)

Lemma reads_choice {A : Type} (P : A -> Prop) (l : list A) :
  l <> [] -> Forall P l -> reads 1 P (choice l).
Proof.
  intros Hne Hl. destruct l as [| a l]; [congruence |].
  change (forall d, P (nth (d mod List.length (a :: l)) (a :: l) a)).
  intros d. apply nth_Forall; [| exact Hl]. inversion Hl; assumption.
Qed.

Lemma random_int_reads (lo hi : Z) :
  (lo <= hi)%Z ->
  reads 1 (fun v => exists x, v = VInt x /\ (lo <= x <= hi)%Z)
        (random_int (VInt lo) (VInt hi)).
Proof.
  intros Hle. unfold random_int. simpl.
  apply (reads_bind 1 0 (fun x => (lo <= x < hi + 1)%Z)).
  - apply reads_randrange. lia.
  - intros x Hx. simpl. exists x. split; [reflexivity | lia].
Qed.

Lemma any_rule_reads : reads 5 any_kind any_rule.
Proof.
  unfold any_rule.
  apply (reads_bind 1 4 (fun _ => True)); [exact reads_draw |]. intros w _.
  apply (reads_bind 1 3 (fun v => exists x, v = VInt x /\ (1 <= x <= 1000)%Z));
    [apply random_int_reads; lia |]. intros i Hi.
  apply (reads_bind 1 2 (fun _ => True)); [exact reads_draw |]. intros f _.
  apply (reads_bind 1 1 (fun _ => True)); [exact reads_draw |]. intros s _.
  apply reads_choice; [discriminate |].
  unfold any_kind.
  constructor; [left; eauto |].
  constructor; [right; left; exact Hi |].
  constructor; [right; right; eauto |].
  constructor; [left; eauto | constructor].
Qed.

(** X5.  A fully dynamic field ([Any]) never raises: it reads exactly five
    cells of the tape (a word, an integer, a float and a sentence are all
    generated before one of them is chosen) and returns a string, an
    integer between 1 and 1000, or a float; never [None], a boolean or a
    container. *)
Theorem dynamic_field_outcome (metadata : gmap string value) (tape : list nat) :
  exists v,
    run (generate_value TAny metadata) tape = (Ok v, skipn 5 tape)
    /\ any_kind v.
Proof. apply reads_run. exact any_rule_reads. Qed.

(** ** Text *)

Lemma length_substring_le (n : nat) (s : string) :
  String.length (substring 0 n s) <= n.
Proof.
  revert s. induction n as [| n IH]; intros [| c s]; simpl; try lia.
  specialize (IH s). lia.
Qed.

Lemma pystr_same_surely (L : Z) :
  surely (fun s => String.length s = Z.to_nat L) (pystr L L).
Proof.
  unfold pystr. rewrite Z.leb_refl.
  apply (surely_bind (fun x => x = L)).
  - eapply surely_mono; [| apply surely_randrange; lia].
    simpl. intros x Hx. lia.
  - intros x ->. unfold random_letters.
    eapply surely_bind.
    + apply (surely_repeat_gen (fun _ => True)).
      apply surely_choice; [discriminate |].
      apply Forall_forall. intros; exact I.
    + simpl. intros chars [Hlen _].
      rewrite length_string_of_list_ascii. exact Hlen.
Qed.

Lemma str_rule_bounds (metadata : gmap string value) (lo hi : Z) :
  text_bounds metadata = Some (lo, hi) ->
  str_rule metadata
  = if (lo =? hi)%Z then let* s := pystr lo lo in Ret (VStr s)
    else let* s := text hi in Ret (VStr (slice_to s (Z.max lo hi))).
Proof.
  unfold text_bounds, str_rule, as_index. intros H.
  destruct (int_of (dict_get metadata "min_length" (VInt 5))) as [a |];
    [| discriminate H].
  destruct (int_of (dict_get metadata "max_length" (VInt 15))) as [b |];
    [| discriminate H].
  inversion H; subst. reflexivity.
Qed.

(** X6.  Whenever the two effective length bounds of a text field coincide,
    be it by declaration or by default (5 when [min_length] is unset, 15
    when [max_length] is unset), synthesis returns on every outcome a string
    of exactly that many characters. *)
Theorem text_exact_effective_length (t : pytype) (metadata : gmap string value)
  (L : Z) (tape : list nat) :
  str_typed t = true ->
  text_bounds metadata = Some (L, L) ->
  exists s tape',
    run (generate_value t metadata) tape = (Ok (VStr s), tape')
    /\ String.length s = Z.to_nat L.
Proof.
  intros Ht Hm. rewrite (generate_value_str t metadata Ht).
  rewrite (str_rule_bounds metadata L L Hm), Z.eqb_refl.
  assert (H : surely (fun v => exists s, v = VStr s /\ String.length s = Z.to_nat L)
                (let* s := pystr L L in Ret (VStr s))).
  { eapply surely_bind; [apply pystr_same_surely |].
    simpl. intros s Hs. exists s. split; [reflexivity | exact Hs]. }
  destruct (surely_run _ _ tape H) as (v & tape' & Hrun & s & -> & Hs).
  exists s, tape'. split; assumption.
Qed.

(** X7.  When the two effective length bounds of a text field differ and
    the upper one is at least 5, synthesis reads one cell of the tape and
    returns the text Faker produced for the upper bound, cut after
    [max(min_length, max_length)] characters: the result never exceeds that
    length, whatever Faker answers, and the lower bound plays no other
    part. *)
Theorem text_bounded_above (t : pytype) (metadata : gmap string value)
  (lo hi : Z) (tape : list nat) :
  str_typed t = true ->
  text_bounds metadata = Some (lo, hi) ->
  lo <> hi ->
  (5 <= hi)%Z ->
  exists s,
    run (generate_value t metadata) tape = (Ok (VStr s), tl tape)
    /\ s = slice_to (text_of hi (hd 0%nat tape)) (Z.max lo hi)
    /\ String.length s <= Z.to_nat (Z.max lo hi).
Proof.
  intros Ht Hm Hne Hhi. rewrite (generate_value_str t metadata Ht).
  rewrite (str_rule_bounds metadata lo hi Hm).
  destruct (Z.eqb_spec lo hi) as [Heq | _]; [contradiction |].
  unfold text. destruct (Z.ltb_spec hi 5) as [Hlt | _]; [lia |].
  eexists. split; [reflexivity | split; [reflexivity |]].
  unfold slice_to. destruct (Z.leb_spec 0 (Z.max lo hi)) as [_ | Hneg]; [| lia].
  apply length_substring_le.
Qed.

(** X8.  When the two effective length bounds of a text field differ and
    the upper one is below 5, synthesis raises [ValueError] on every
    outcome: such a field cannot be synthesized. *)
Theorem text_short_upper_bound_raises (t : pytype)
  (metadata : gmap string value) (lo hi : Z) :
  str_typed t = true ->
  text_bounds metadata = Some (lo, hi) ->
  lo <> hi ->
  (hi < 5)%Z ->
  generate_value t metadata = Raise ValueError.
Proof.
  intros Ht Hm Hne Hhi. rewrite (generate_value_str t metadata Ht).
  rewrite (str_rule_bounds metadata lo hi Hm).
  destruct (Z.eqb_spec lo hi) as [Heq | _]; [contradiction |].
  unfold text. destruct (Z.ltb_spec hi 5) as [_ | Hge]; [reflexivity | lia].
Qed.

(** ** Integers *)

(** X9.  When the bounds derived for an integer field are contradictory
    (the lower one above the upper one), synthesis raises [ValueError] on
    every outcome, before reading the random source. *)
Theorem contradictory_integer_bounds_raise (t : pytype)
  (metadata : gmap string value) :
  int_typed t = true ->
  int_bounds metadata = true ->
  (spec_hi metadata < spec_lo metadata)%Z ->
  generate_value t metadata = Raise ValueError.
Proof.
  intros Ht Hm Hlt.
  rewrite (generate_value_int t metadata Ht), (int_rule_spec metadata Hm).
  unfold random_int. simpl. unfold randrange.
  destruct (Z.ltb_spec (spec_lo metadata) (spec_hi metadata + 1)) as [H | _];
    [lia | reflexivity].
Qed.

(** ** The kind of value a primitive field gets *)

Lemma random_int_is_int (min max : value) :
  always (fun v => exists z, v = VInt z) (random_int min max).
Proof.
  unfold random_int. repeat (apply always_bind_any; intros ?). simpl. eauto.
Qed.

Lemma float_typed_inv (t : pytype) :
  float_typed t = true ->
  t = TBuiltin Cfloat \/ exists name, t = TSubclass Cfloat name.
Proof.
  destruct t as [| name | o args | c | c name | mixin members | root | fields];
    try discriminate.
  - destruct c; try discriminate. intros _. left. reflexivity.
  - destruct c; try discriminate. intros _. right. exists name. reflexivity.
  - destruct mixin as [[] |]; discriminate.
Qed.

(** X10.  Whatever the constraint mapping holds, a value returned for an
    integer-typed field is an integer, one returned for a float-typed field
    is a float rounded to two digits, and one returned for a text-typed
    field is a string. *)
Theorem primitive_value_kinds (t : pytype) (metadata : gmap string value)
  (tape tape' : list nat) (v : value) :
  run (generate_value t metadata) tape = (Ok v, tape') ->
  (int_typed t = true -> exists z, v = VInt z)
  /\ (float_typed t = true -> exists x, v = VFloat (round2 x))
  /\ (str_typed t = true -> exists s, v = VStr s).
Proof.
  intros Hrun. split; [| split]; intros Ht.
  - rewrite (generate_value_int t metadata Ht) in Hrun.
    refine (always_run (fun v => exists z, v = VInt z) _ _ _ _ _ Hrun).
    unfold int_rule.
    do 2 (apply always_bind_any; intros ?). apply random_int_is_int.
  - assert (Heq : generate_value t metadata = float_rule metadata)
      by (destruct (float_typed_inv t Ht) as [-> | [name ->]]; reflexivity).
    rewrite Heq in Hrun.
    refine (always_run (fun v => exists x, v = VFloat (round2 x)) _ _ _ _ _ Hrun).
    unfold float_rule.
    repeat (apply always_bind_any; intros ?). simpl. eauto.
  - rewrite (generate_value_str t metadata Ht) in Hrun.
    refine (always_run (fun v => exists s, v = VStr s) _ _ _ _ _ Hrun).
    unfold str_rule.
    do 2 (apply always_bind_any; intros ?).
    destruct (_ =? _)%Z; apply always_bind_any; intros ?; simpl; eauto.
Qed.

(** ** Optional fields, all outcomes *)

(** X11.  The values an Optional field can return are exactly these: any
    value that synthesis of its first alternative other than [None] can
    return, and [None] provided that synthesis can return at all.  The
    other alternatives of the union are never synthesized. *)
Theorem optional_outcomes (args : list pytype) (t : pytype)
  (metadata : gmap string value) (v : value) :
  existsb is_NoneType args = true ->
  first_non_none args = Some t ->
  can_return (generate_value (TAlias OUnion args) metadata) v
  <-> (v = VNone /\ exists w, can_return (generate_value t metadata) w)
      \/ can_return (generate_value t metadata) v.
Proof.
  intros Hnone Hfirst.
  rewrite (generate_value_optional args t metadata Hnone Hfirst).
  rewrite can_return_bind_iff. split.
  - intros (a & Ha & Hc). apply can_return_choice_pair in Hc.
    destruct Hc as [-> | ->]; [left; split; [reflexivity | eauto] | right; exact Ha].
  - intros [[-> [w Hw]] | Hv].
    + exists w. split; [exact Hw |]. apply can_return_choice_pair. left. reflexivity.
    + exists v. split; [exact Hv |]. apply can_return_choice_pair. right. reflexivity.
Qed.

(** ** The extractor, annotation by annotation *)

Lemma extract_metadata_lookup (metadata : list annotation) (k : string) :
  extract_metadata metadata !! k
  = match foldl extract_item ∅ metadata !! k with
    | Some v => set_value v
    | None => None
    end.
Proof.
  unfold extract_metadata, set_value.
  destruct (foldl extract_item ∅ metadata !! k) as [v |] eqn:E.
  - destruct (is_not_none v) eqn:Hv.
    + apply map_lookup_filter_Some. split; [exact E | exact Hv].
    + apply map_lookup_filter_None. right. intros v' E' Hv'.
      rewrite E in E'. inversion E'; subst. simpl in Hv'. congruence.
  - apply map_lookup_filter_None. left. exact E.
Qed.

Lemma extract_loop_other (metadata : list annotation) (acc : gmap string value) :
  forallb is_other metadata = true -> foldl extract_item acc metadata = acc.
Proof.
  revert acc. induction metadata as [| item metadata IH]; intros acc; simpl.
  - reflexivity.
  - intros H. apply andb_prop in H. destruct H as [Hitem H].
    destruct item; try discriminate Hitem. simpl. apply IH, H.
Qed.

(** X12.  The last annotation of a recognized kind decides each of its
    attributes: a numeric bound it sets is the extracted bound, and a bound
    it leaves unset is absent from the output even when an earlier
    annotation had set it; names that are not its attributes keep what the
    earlier annotations gave them.  The same holds of the attributes of a
    text-constraint annotation. *)
Theorem extract_last_annotation_decides
  (before after : list annotation) (k : string) :
  forallb is_other after = true ->
  (forall i : Interval,
      (In k ["gt"; "ge"; "lt"; "le"] ->
       extract_metadata (before ++ AInterval i :: after) !! k
       = match interval_attr i k with Some v => set_value v | None => None end)
      /\ (~ In k ["gt"; "ge"; "lt"; "le"] ->
          extract_metadata (before ++ AInterval i :: after) !! k
          = extract_metadata before !! k))
  /\ (forall c : StringConstraints,
         (forall v, In (k, v) (sc_dict c) ->
                    extract_metadata (before ++ AStringConstraints c :: after) !! k
                    = set_value v)
         /\ (~ In k (map fst (sc_dict c)) ->
             extract_metadata (before ++ AStringConstraints c :: after) !! k
             = extract_metadata before !! k)).
Proof.
  intros Hafter. split.
  - intros i. rewrite !extract_metadata_lookup, foldl_app. simpl.
    rewrite (extract_loop_other after _ Hafter).
    set (acc := foldl extract_item ∅ before). split.
    + intros Hk. simpl in Hk.
      destruct Hk as [<- | [<- | [<- | [<- | []]]]]; simpl;
        repeat (rewrite lookup_insert_ne by discriminate);
        rewrite lookup_insert_eq; reflexivity.
    + intros Hk. simpl in Hk.
      repeat (rewrite lookup_insert_ne by (intros <-; tauto)). reflexivity.
  - intros c. rewrite !extract_metadata_lookup, foldl_app. simpl.
    rewrite (extract_loop_other after _ Hafter).
    set (acc := foldl extract_item ∅ before). unfold dict_update, sc_dict.
    split.
    + intros v Hk. simpl in Hk.
      repeat (destruct Hk as [Hk | Hk];
              [inversion Hk; subst; simpl;
               repeat (rewrite lookup_insert_ne by discriminate);
               rewrite lookup_insert_eq; reflexivity |]).
      destruct Hk.
    + intros Hk. simpl in Hk. simpl.
      repeat (rewrite lookup_insert_ne by (intros <-; tauto)). reflexivity.
Qed.

(** ** Declared types that cannot fail *)

Lemma reads_surely {A : Type} (n : nat) (P : A -> Prop) (x : gen A) :
  reads n P x -> surely P x.
Proof.
  revert x. induction n as [| n IH]; intros [a | e | k]; simpl; try tauto.
  intros H d. apply IH, H.
Qed.

Lemma surely_then {A B : Type} (x : gen A) (f : A -> gen B) :
  surely (fun _ => True) x ->
  (forall a, surely (fun _ => True) (f a)) ->
  surely (fun _ => True) (bind x f).
Proof.
  intros Hx Hf. apply (surely_bind (fun _ => True)); [exact Hx |].
  intros a _. apply Hf.
Qed.

Lemma surely_weaken {A : Type} (P : A -> Prop) (x : gen A) :
  surely P x -> surely (fun _ => True) x.
Proof. apply surely_mono. intros; exact I. Qed.

Lemma surely_map_gen {A B : Type} (f : A -> gen B) (l : list A) :
  Forall (fun a => surely (fun _ => True) (f a)) l ->
  surely (fun _ => True) (map_gen f l).
Proof.
  induction 1 as [| a l Ha _ IH]; simpl; [exact I |].
  apply surely_then; [exact Ha |]. intros b.
  apply surely_then; [exact IH |]. intros bs. exact I.
Qed.

Lemma surely_draw : surely (fun _ : nat => True) draw.
Proof. intros d. exact I. Qed.

Lemma any_rule_surely : surely (fun _ => True) any_rule.
Proof. exact (surely_weaken _ _ (reads_surely _ _ _ any_rule_reads)). Qed.

Lemma first_accepted_cons (accept : pytype -> bool) (t : pytype)
  (args : list pytype) :
  first_accepted accept (t :: args)
  = if is_NoneType t then first_accepted accept args else accept t.
Proof. reflexivity. Qed.

Lemma int_rule_surely (metadata : gmap string value) :
  int_ok metadata = true -> surely (fun _ => True) (int_rule metadata).
Proof.
  unfold int_ok. intros H. apply andb_prop in H. destruct H as [Hb Hle].
  rewrite (int_rule_spec metadata Hb).
  eapply surely_weaken, random_int_surely. apply Z.leb_le, Hle.
Qed.

Lemma str_rule_surely (metadata : gmap string value) :
  str_ok metadata = true -> surely (fun _ => True) (str_rule metadata).
Proof.
  unfold str_ok. destruct (text_bounds metadata) as [[lo hi] |] eqn:Hb;
    [| discriminate].
  rewrite (str_rule_bounds metadata lo hi Hb).
  destruct (lo =? hi)%Z; simpl; intros H.
  - apply surely_then; [| intros; exact I].
    exact (surely_weaken _ _ (pystr_same_surely lo)).
  - unfold text. apply Z.leb_le in H.
    destruct (Z.ltb_spec hi 5) as [Hlt | _]; [lia |].
    intros d. exact I.
Qed.

Lemma builtin_rule_surely (c : builtin) (exact : bool)
  (metadata : gmap string value) :
  match c with
  | Cint => int_ok metadata
  | Cstr => str_ok metadata
  | Cfloat => false
  | _ => true
  end = true ->
  surely (fun _ => True) (builtin_rule c exact metadata).
Proof.
  destruct c; cbn [builtin_rule]; intros H; try exact I.
  - apply surely_then; [exact boolean_surely | intros; exact I].
  - apply int_rule_surely, H.
  - discriminate H.
  - apply str_rule_surely, H.
  - destruct exact; [| exact I]. unfold word_list_rule.
    apply surely_then; [| intros; exact I].
    exact (surely_weaken _ _ (surely_repeat_gen (fun _ => True) 3 word surely_draw)).
Qed.

Lemma dict_rule_surely (value_gen : gen value) :
  surely (fun _ => True) value_gen -> surely (fun _ => True) (dict_rule value_gen).
Proof.
  intros Hg. unfold dict_rule. apply surely_then; [| intros; exact I].
  eapply surely_weaken. apply (surely_repeat_gen (fun _ => True)).
  apply surely_then; [exact surely_draw |]. intros k.
  apply surely_then; [exact Hg |]. intros v. exact I.
Qed.

Lemma accepted_surely (t : pytype) :
  forall metadata : gmap string value,
    accepted t metadata = true ->
    surely (fun _ => True) (generate_value t metadata).
Proof.
  induction t as [| name | o args IH | c | c name | mixin members | | r IH | fields IH]
    using pytype_nested_ind; intros metadata H.
  - exact any_rule_surely.
  - exact I.
  - destruct o; cbn [generate_value accepted] in *.
    + destruct (existsb is_NoneType args); [| exact I]. simpl in H.
      induction IH as [| x l Hx _ IHl]; [discriminate H |].
      rewrite with_first_non_none_cons. rewrite first_accepted_cons in H.
      destruct (is_NoneType x); [apply IHl, H |].
      apply surely_then; [apply Hx, H |]. intros v.
      apply surely_choice; [discriminate | repeat constructor].
    + apply surely_then; [| intros; exact I].
      eapply surely_weaken. apply (surely_repeat_gen (fun _ => True)).
      destruct IH as [| x l Hx _]; [exact any_rule_surely | apply Hx, H].
    + destruct IH as [| a l1 Ha [| b l2 Hb [| c l3 Hc _]]]; try discriminate H.
      * apply dict_rule_surely, any_rule_surely.
      * apply dict_rule_surely, Hb, H.
    + apply surely_then; [| intros; exact I].
      apply surely_map_gen. apply Forall_of_forallb in H.
      induction IH as [| x l Hx _ IHl]; constructor.
      * apply Hx. inversion H; assumption.
      * apply IHl. inversion H; assumption.
    + exact I.
  - apply builtin_rule_surely, H.
  - apply builtin_rule_surely, H.
  - cbn [generate_value accepted] in *.
    destruct members as [| m members]; [discriminate H |].
    apply surely_choice; [discriminate |]. apply Forall_forall. intros; exact I.
  - exact any_rule_surely.
  - apply IH, H.
  - cbn [generate_value accepted] in *. apply Forall_of_forallb in H.
    apply surely_then; [| intros; exact I].
    apply surely_map_gen.
    induction IH as [| [name [annotation md]] l Hx _ IHl]; constructor.
    + apply surely_then; [| intros; exact I].
      apply Hx. inversion H; assumption.
    + apply IHl. inversion H; assumption.
Qed.

(** X13.  Synthesis cannot fail, whatever the random source answers, for a
    declared type built from: integer fields whose bounds are integers
    leaving a non-empty range, text fields whose length bounds are integers
    that are equal or whose upper bound is at least 5, booleans,
    enumerations with a member, lists, tuples, mappings written with no or
    two parameters, Optional of such a type, root models and models over
    such types, and dynamic fields. *)
Theorem accepted_never_raises (t : pytype) (metadata : gmap string value)
  (tape : list nat) :
  accepted t metadata = true ->
  exists v tape', run (generate_value t metadata) tape = (Ok v, tape').
Proof.
  intros H.
  destruct (surely_run _ _ tape (accepted_surely t metadata H)) as (v & tape' & Hrun & _).
  exists v, tape'. exact Hrun.
Qed.

(** ** Which rule takes a declared type *)

Lemma generate_value_body_dispatch
  (gv : pytype -> gmap string value -> gen value) (gdi : pytype -> gen value)
  (t : pytype) (metadata : gmap string value) :
  generate_value_body gv gdi t metadata
  = match first_rule t with
    | Some i => nth i (rule_results gv gdi t metadata) (Ret VNone)
    | None => Ret VNone
    end.
Proof.
  unfold generate_value_body, first_rule, rule_conditions, rule_results.
  cbn [first_true].
  repeat match goal with
         | |- context [if ?b then _ else _] =>
             destruct b; [reflexivity |]; cbn [fmap option_fmap option_map]
         end.
  reflexivity.
Qed.

(** X14.  The rules of [generate_value] that can take a declared type are
    the eleven rules up to the text rule, the bare-list rule and the
    dynamic-field rule.  The default rules for plain [str], [int] and
    [float] (rules 11, 12 and 13 in source order) are never taken: the
    rules for classes deriving from these types come first and take the
    plain classes too. *)
Theorem primitive_fallbacks_unreachable (i : nat) :
  (exists t : pytype, first_rule t = Some i)
  <-> (i < 16 /\ i <> 11 /\ i <> 12 /\ i <> 13)%nat.
Proof.
  split.
  - intros [t Ht]. unfold first_rule, rule_conditions in Ht.
    destruct t as [| name | o args | c | c name | mixin members | [r |] | fields];
      cbn in Ht;
      try (destruct o; cbn in Ht; try destruct (existsb is_NoneType args); cbn in Ht);
      try (destruct c; cbn in Ht);
      try (destruct mixin as [[] |]; cbn in Ht);
      try discriminate Ht; inversion Ht; subst; lia.
  - intros (Hi & H11 & H12 & H13).
    destruct i as [| [| [| [| [| [| [| [| [| [| [| [| [| [| [| [| i]]]]]]]]]]]]]]]];
      try lia.
    + exists (TAlias OUnion [TBuiltin CNoneType]). reflexivity.
    + exists (TRootModel None). reflexivity.
    + exists (TModel []). reflexivity.
    + exists (TEnum None []). reflexivity.
    + exists (TAlias Olist []). reflexivity.
    + exists (TAlias Odict []). reflexivity.
    + exists (TAlias Otuple []). reflexivity.
    + exists (TBuiltin Cbool). reflexivity.
    + exists (TBuiltin Cint). reflexivity.
    + exists (TBuiltin Cfloat). reflexivity.
    + exists (TBuiltin Cstr). reflexivity.
    + exists (TBuiltin Clist). reflexivity.
    + exists TAny. reflexivity.
Qed.

(** ** The text returned for a model *)

(** X15.  For a model whose field names are distinct, the text returned by
    [generate_dummy_data] is that of a JSON object whose member names are
    the declared field names, in declaration order. *)
Theorem dummy_data_object_names
  (fields : list (string * (pytype * list annotation)))
  (tape tape' : list nat) (text : json_text) :
  NoDup (map fst fields) ->
  run (generate_dummy_data (TModel fields)) tape = (Ok text, tape') ->
  exists members,
    decode text = Some (JObject members) /\ map fst members = map fst fields.
Proof.
  intros Hnd Hrun. unfold generate_dummy_data in Hrun.
  apply run_bind_inv in Hrun. destruct Hrun as (v & tape1 & Hrun & Hret).
  simpl in Hret. inversion Hret; subst text tape1; clear Hret.
  rewrite <- (generate_value_model fields ∅) in Hrun.
  cbn [generate_value] in Hrun.
  apply run_bind_inv in Hrun. destruct Hrun as (items & tape1 & Hitems & Hret).
  simpl in Hret. inversion Hret; subst v tape1; clear Hret.
  assert (Hkeys : map fst items = map fst fields).
  { refine (always_run (fun items => map fst items = map fst fields)
                       _ _ _ _ _ Hitems).
    apply (map_gen_keys fst). intros [name [annotation md]].
    apply always_bind_any. intros v. reflexivity. }
  rewrite dict_of_items_fresh by (rewrite Hkeys; exact Hnd).
  exists (map (fun kv : string * value => (kv.1, to_json kv.2)) items).
  split.
  - unfold dumps. rewrite decode_encode. reflexivity.
  - rewrite map_map. simpl. exact Hkeys.
Qed.

Lemma to_json_listify (v : value) : to_json (listify v) = to_json v.
Proof.
  induction v as [| b | z | f | s | l IH | l IH | d IH] using value_nested_ind;
    simpl; try reflexivity.
  - f_equal. induction IH as [| x l Hx _ IHl]; simpl; [reflexivity |].
    rewrite Hx, IHl. reflexivity.
  - f_equal. induction IH as [| x l Hx _ IHl]; simpl; [reflexivity |].
    rewrite Hx, IHl. reflexivity.
  - f_equal. induction IH as [| [k x] d Hx _ IHd]; simpl in *; [reflexivity |].
    rewrite Hx, IHd. reflexivity.
Qed.

(** X16.  Reading the returned text and writing out what was read gives the
    same text again: the tuples that are read back as lists are written the
    same way. *)
Theorem reread_rewrites_same_text (model : pytype) (tape tape' : list nat)
  (text : json_text) :
  wf_pytype model = true ->
  run (generate_dummy_data model) tape = (Ok text, tape') ->
  exists v', loads text = Ok v' /\ dumps v' = text.
Proof.
  intros Hwf Hrun. unfold generate_dummy_data in Hrun.
  apply run_bind_inv in Hrun. destruct Hrun as (v & tape1 & Hrun & Hret).
  simpl in Hret. inversion Hret; subst text tape1; clear Hret.
  pose proof (always_run _ _ _ _ _ (generate_dummy_instance_wf model Hwf) Hrun) as Hv.
  simpl in Hv. exists (listify v). split.
  - apply roundtrip_listify, Hv.
  - unfold dumps. rewrite to_json_listify. reflexivity.
Qed.

(** ** From an annotation to the range of an integer field *)

Lemma extract_metadata_skips_other (metadata : list annotation) :
  extract_metadata (List.filter (fun item => negb (is_other item)) metadata)
  = extract_metadata metadata.
Proof.
  unfold extract_metadata. rewrite extract_loop_skips_other. reflexivity.
Qed.

(** X17.  An integer field annotated with one interval, among annotations
    of other kinds, gets an integer between the bounds the interval sets:
    from [ge] if set, else from [gt + 1], else from 2; up to [le] if set,
    else [lt - 1], else 999. *)
Theorem interval_annotation_range (t : pytype) (field_metadata : list annotation)
  (gt ge lt le : option Z) (lo hi : Z) (tape : list nat) :
  int_typed t = true ->
  List.filter (fun item => negb (is_other item)) field_metadata
  = [AInterval (interval gt ge lt le)] ->
  lo = match ge, gt with
       | Some g, _ => g
       | None, Some g => (g + 1)%Z
       | None, None => 2%Z
       end ->
  hi = match le, lt with
       | Some l, _ => l
       | None, Some l => (l - 1)%Z
       | None, None => 999%Z
       end ->
  (lo <= hi)%Z ->
  exists x tape',
    run (generate_value t (extract_metadata field_metadata)) tape
    = (Ok (VInt x), tape')
    /\ (lo <= x <= hi)%Z.
Proof.
  intros Ht Hfilter Hlo Hhi Hle.
  rewrite <- extract_metadata_skips_other, Hfilter.
  set (metadata := extract_metadata [AInterval (interval gt ge lt le)]).
  assert (Hb : int_bounds metadata = true)
    by (destruct gt, ge, lt, le; vm_compute; reflexivity).
  assert (Hslo : spec_lo metadata = lo)
    by (subst lo; destruct gt, ge, lt, le; vm_compute; reflexivity).
  assert (Hshi : spec_hi metadata = hi)
    by (subst hi; destruct gt, ge, lt, le; vm_compute; reflexivity).
  rewrite (generate_value_int t metadata Ht), (int_rule_spec metadata Hb).
  rewrite Hslo, Hshi.
  destruct (surely_run _ _ tape (random_int_surely lo hi Hle))
    as (v & tape' & Hrun & x & -> & Hx).
  exists x, tape'. split; [exact Hrun | exact Hx].
Qed.

End Coverage.

(** ** The further properties at work on the test-suite models *)

Lemma Address_names_NoDup : NoDup (map fst Address_fields).
Proof.
  apply NoDup_cons. split; [| apply NoDup_singleton].
  intros H. apply list_elem_of_singleton in H. discriminate H.
Qed.

Lemma record_field_values_witness :
  exists v vals,
    (run (generate_value Address (∅ : gmap string (@value demo_fake)))
         [3; 10; 17]%nat).1 = Ok v
    /\ v = VDict (combine ["city"; "zip_code"] vals).
Proof.
  destruct (run (generate_value Address (∅ : gmap string (@value demo_fake)))
                [3; 10; 17]%nat) as [[v | e] tape'] eqn:Hrun;
    [| vm_compute in Hrun; discriminate Hrun].
  destruct (proj1 (record_field_values Address_fields ∅ _ _ _ Address_names_NoDup) Hrun)
    as (vals & Hv & _).
  exists v, vals. split; [reflexivity | exact Hv].
Defined.

Lemma text_exact_effective_length_witness :
  exists s tape',
    run (generate_value TStr (extract_metadata (constr (VInt 15) VNone))) (seq 0 20)
    = (Ok (VStr s), tape')
    /\ String.length s = 15%nat.
Proof.
  apply (text_exact_effective_length
           TStr (extract_metadata (constr (VInt 15) VNone)) 15 (seq 0 20)).
  - reflexivity.
  - vm_compute. reflexivity.
Defined.

Lemma text_bounded_above_witness :
  exists s,
    run (generate_value TStr (extract_metadata (constr (VInt 2) (VInt 8)))) [3%nat]
    = (Ok (VStr s), [])
    /\ s = slice_to (text_of (FakeSource := demo_fake) 8 3) 8
    /\ String.length s <= 8.
Proof.
  apply (text_bounded_above
           TStr (extract_metadata (constr (VInt 2) (VInt 8))) 2 8 [3%nat]).
  - reflexivity.
  - vm_compute. reflexivity.
  - discriminate.
  - lia.
Defined.

Lemma text_short_upper_bound_raises_witness :
  generate_value TStr length_1_3 = Raise ValueError.
Proof.
  apply (text_short_upper_bound_raises TStr length_1_3 1 3).
  - reflexivity.
  - vm_compute. reflexivity.
  - discriminate.
  - lia.
Defined.

Lemma contradictory_integer_bounds_raise_witness :
  generate_value TInt bounds_5_1 = Raise ValueError.
Proof.
  apply (contradictory_integer_bounds_raise TInt bounds_5_1).
  - reflexivity.
  - vm_compute. reflexivity.
  - vm_compute. reflexivity.
Defined.

Lemma primitive_value_kinds_witness :
  exists v z,
    (run (generate_value TInt bounds_100_999) [5%nat]).1 = Ok v /\ v = VInt z.
Proof.
  destruct (run (generate_value TInt bounds_100_999) [5%nat])
    as [[v | e] tape'] eqn:Hrun;
    [| vm_compute in Hrun; discriminate Hrun].
  destruct (primitive_value_kinds TInt bounds_100_999 _ _ _ Hrun) as (Hint & _).
  destruct (Hint eq_refl) as [z Hz].
  exists v, z. split; [reflexivity | exact Hz].
Defined.

Lemma optional_outcomes_witness :
  can_return (generate_value (TOptional TInt) bounds_100_999) (VInt 105)
  <-> (VInt 105 = @VNone demo_fake
       /\ exists w, can_return (generate_value TInt bounds_100_999) w)
      \/ can_return (generate_value TInt bounds_100_999) (VInt 105).
Proof.
  apply (optional_outcomes [TInt; TNoneType] TInt bounds_100_999 (VInt 105)).
  - reflexivity.
  - reflexivity.
Defined.

Lemma extract_last_annotation_decides_witness :
  extract_metadata
    (conint (VInt 1000) VNone (VInt 9999) VNone
     ++ AInterval (interval (fake := demo_fake) None (Some 5%Z) None None)
        :: [AOther "MultipleOf"]) !! "gt" = None.
Proof.
  refine (eq_trans
            (proj1 (proj1 (extract_last_annotation_decides
                             (conint (VInt 1000) VNone (VInt 9999) VNone)
                             [AOther "MultipleOf"] "gt" eq_refl)
                          (interval None (Some 5%Z) None None))
                   _)
            _).
  - left. reflexivity.
  - reflexivity.
Defined.

Lemma accepted_never_raises_witness :
  exists v tape',
    run (generate_value Address (∅ : gmap string (@value demo_fake))) [3; 10; 17]%nat
    = (Ok v, tape').
Proof.
  apply (accepted_never_raises Address ∅ [3; 10; 17]%nat).
  vm_compute. reflexivity.
Defined.

Lemma dummy_data_object_names_witness :
  exists text members,
    (run (generate_dummy_data (syntax := demo_syntax) Address) [3; 10; 17]%nat).1
    = Ok text
    /\ decode text = Some (JObject members)
    /\ map fst members = ["city"; "zip_code"].
Proof.
  destruct (run (generate_dummy_data (syntax := demo_syntax) Address) [3; 10; 17]%nat)
    as [[text | e] tape'] eqn:Hrun;
    [| vm_compute in Hrun; discriminate Hrun].
  destruct (dummy_data_object_names (syntax := demo_syntax)
              Address_fields _ _ _ Address_names_NoDup Hrun)
    as (members & Hdecode & Hnames).
  exists text, members. split; [reflexivity | split; assumption].
Defined.

Lemma reread_rewrites_same_text_witness :
  exists text v',
    (run (generate_dummy_data (syntax := demo_syntax)
            (TModel [("coordinates", (TAlias Otuple [TInt; TInt], []))]))
         [7; 8]%nat).1 = Ok text
    /\ loads text = Ok v'
    /\ dumps v' = text.
Proof.
  destruct (run (generate_dummy_data (syntax := demo_syntax)
                   (TModel [("coordinates", (TAlias Otuple [TInt; TInt], []))]))
                [7; 8]%nat) as [[text | e] tape'] eqn:Hrun;
    [| vm_compute in Hrun; discriminate Hrun].
  destruct (reread_rewrites_same_text (syntax := demo_syntax)
              (TModel [("coordinates", (TAlias Otuple [TInt; TInt], []))])
              _ _ _ eq_refl Hrun)
    as (v' & Hloads & Hdumps).
  exists text, v'. split; [reflexivity | split; assumption].
Defined.

Lemma interval_annotation_range_witness :
  exists x tape',
    run (generate_value TInt
           (extract_metadata
              [AOther "Strict";
               AInterval (interval (fake := demo_fake)
                            (Some 1000%Z) None (Some 9999%Z) None);
               AOther "MultipleOf"]))
        [10%nat]
    = (Ok (VInt x), tape')
    /\ (1001 <= x <= 9998)%Z.
Proof.
  apply (interval_annotation_range
           TInt
           [AOther "Strict";
            AInterval (interval (fake := demo_fake)
                         (Some 1000%Z) None (Some 9999%Z) None);
            AOther "MultipleOf"]
           (Some 1000%Z) None (Some 9999%Z) None 1001 9998 [10%nat]).
  - reflexivity.
  - reflexivity.
  - reflexivity.
  - reflexivity.
  - lia.
Defined.

Lemma enumeration_member_witness :
  can_return (generate_value UserRole (∅ : gmap string (@value demo_fake)))
             (VStr "guest").
Proof.
  apply (proj2 (proj2 (proj2
           (enumeration_member None [VStr "admin"; VStr "user"; VStr "guest"] ∅)))).
  right. right. left. reflexivity.
Defined.
